(** * monitor_docker: the integration's entry points

    A shallow embedding of [custom_components/monitor_docker/__init__.py]:
    the YAML schema [DOCKER_SCHEMA], [async_setup], [async_setup_entry] and
    [async_unload_entry], followed by the properties proved about them.

    Python objects are modelled by [pyval]; dictionaries are finite maps;
    a coroutine is a function from the state it runs in to an outcome
    (a value or a raised exception) and the state it leaves behind.  Each
    [await] of a collaborator is answered by the [World] the coroutine runs
    in and is recorded, in order, in the trace of the state. *)

From Stdlib Require Import ZArith QArith Lia.
From stdpp Require Import base option list strings gmap pretty.

Set Warnings "-register-all".

Local Open Scope Z_scope.
Local Open Scope string_scope.
Local Open Scope list_scope.

(** ** Python values *)

(** The values a YAML document or a config entry can hold.  Floating
    point numbers are left out. *)
Inductive pyval :=
| VNone
| VBool (b : bool)
| VInt (z : Z)
| VStr (s : string)
| VList (l : list pyval)
| VDict (d : list (string * pyval)).

(** Hashable values, as dictionary keys compare them: [True == 1] and
    [False == 0] are the same key. *)
Inductive pykey :=
| KNone
| KInt (z : Z)
| KStr (s : string).

#[global] Instance pykey_eq_dec : EqDecision pykey.
Proof. solve_decision. Defined.

#[global] Instance pykey_countable : Countable pykey.
Proof.
  refine (inj_countable'
    (fun k => match k with
              | KNone => inl ()
              | KInt z => inr (inl z)
              | KStr s => inr (inr s)
              end)
    (fun c => match c with
              | inl _ => KNone
              | inr (inl z) => KInt z
              | inr (inr s) => KStr s
              end) _).
  by intros [].
Defined.

(** ** Exceptions

    [exn] models the instances of Python's [Exception] class, which is what
    the clause [except Exception] catches.  Signals that derive from
    [BaseException] only (task cancellation, interpreter exit) never enter
    a handler of this module and are not modelled. *)
Inductive exn :=
| ConfigEntryAuthFailed (msg : string)
| ConfigEntryNotReady (msg : string) (cause : option exn)
| KeyError (key : pykey)
| TypeError (msg : string)
| AttributeError (msg : string)
| ValueError (msg : string)
| Invalid (msg : string)
| MultipleInvalid (errors : list exn)
| OtherException (cls msg : string).

(** [isinstance(e, ConfigEntryAuthFailed)] *)
Definition is_ConfigEntryAuthFailed (e : exn) : bool :=
  match e with
  | ConfigEntryAuthFailed _ => true
  | _ => false
  end.

(** [isinstance(e, ConfigEntryNotReady)] *)
Definition is_ConfigEntryNotReady (e : exn) : bool :=
  match e with
  | ConfigEntryNotReady _ _ => true
  | _ => false
  end.

(** The outcome of evaluating an expression or a statement. *)
Inductive result (A : Type) :=
| Ok (a : A)
| Raise (e : exn).
Arguments Ok {A} a.
Arguments Raise {A} e.

Definition is_Ok {A} (r : result A) : bool :=
  match r with
  | Ok _ => true
  | Raise _ => false
  end.

#[global] Instance result_ret : MRet result := fun A (a : A) => Ok a.

#[global] Instance result_bind : MBind result :=
  fun A B (k : A -> result B) (r : result A) =>
    match r with
    | Ok a => k a
    | Raise e => Raise e
    end.

(** ** Coroutines over a state

    A raised exception keeps the state reached so far: Python does not
    roll back the writes made before the [raise]. *)
Definition M (S A : Type) : Type := S -> result A * S.

#[global] Instance M_ret {S} : MRet (M S) :=
  fun A (a : A) s => (Ok a, s).

#[global] Instance M_bind {S} : MBind (M S) :=
  fun A B (k : A -> M S B) (c : M S A) s =>
    match c s with
    | (Ok a, s') => k a s'
    | (Raise e, s') => (Raise e, s')
    end.

Definition raise {S A} (e : exn) : M S A := fun s => (Raise e, s).

Definition gets {S A} (f : S -> A) : M S A := fun s => (Ok (f s), s).

Definition modify {S} (f : S -> S) : M S unit := fun s => (Ok tt, f s).

(** Lift a pure evaluation that may raise. *)
Definition eval {S A} (r : result A) : M S A := fun s => (r, s).

(** [try: body  except <class>: handler]: the handler runs in the state
    the body left. *)
Definition try_except {S A} (body : M S A) (handler : exn -> M S A) : M S A :=
  fun s =>
    match body s with
    | (Ok a, s') => (Ok a, s')
    | (Raise e, s') => handler e s'
    end.

(** ** Dictionary and list primitives *)

(** [d[k]] on a dictionary with string keys. *)
Definition getitem {V} (d : gmap string V) (k : string) : result V :=
  match d !! k with
  | Some v => Ok v
  | None => Raise (KeyError (KStr k))
  end.

(** [hash(v)]: lists and dictionaries are unhashable. *)
Definition py_key (v : pyval) : result pykey :=
  match v with
  | VNone => Ok KNone
  | VBool b => Ok (KInt (if b then 1 else 0))
  | VInt z => Ok (KInt z)
  | VStr s => Ok (KStr s)
  | VList _ => Raise (TypeError "unhashable type: 'list'")
  | VDict _ => Raise (TypeError "unhashable type: 'dict'")
  end.

(** [d[k]] on a dictionary keyed by hashable values. *)
Definition getitem_key {V} (d : gmap pykey V) (k : pykey) : result V :=
  match d !! k with
  | Some v => Ok v
  | None => Raise (KeyError k)
  end.

(** ** Constants of [const.py] and [homeassistant.const]

    The module imports its option names, defaults and dictionary keys; the
    development is parametric in their values. *)
Class Consts := {
  DOMAIN : string;
  CONFIG : string;
  API : string;
  CONF_NAME : string;
  CONF_PREFIX : string;
  CONF_URL : string;
  CONF_SCAN_INTERVAL : string;
  CONF_MONITORED_CONDITIONS : string;
  CONF_CONTAINERS : string;
  CONF_CONTAINERS_EXCLUDE : string;
  CONF_RENAME : string;
  CONF_RENAME_ENITITY : string;
  CONF_SENSORNAME : string;
  CONF_SWITCHENABLED : string;
  CONF_BUTTONENABLED : string;
  CONF_SWITCHNAME : string;
  CONF_BUTTONNAME : string;
  CONF_CERTPATH : string;
  CONF_RETRY : string;
  CONF_MEMORYCHANGE : string;
  CONF_PRECISION_CPU : string;
  CONF_PRECISION_MEMORY_MB : string;
  CONF_PRECISION_MEMORY_PERCENTAGE : string;
  CONF_PRECISION_NETWORK_KB : string;
  CONF_PRECISION_NETWORK_MB : string;
  DEFAULT_NAME : string;
  DEFAULT_SCAN_INTERVAL : Z;
  DEFAULT_SENSORNAME : string;
  DEFAULT_SWITCHNAME : string;
  DEFAULT_BUTTONNAME : string;
  DEFAULT_RETRY : Z;
  PRECISION : Z;
  CONTAINER_INFO_ALLINONE : string;
  MONITORED_CONDITIONS_LIST : list string;
}.

(** ** The host application *)

(** [homeassistant.const.Platform], the members this module names. *)
Inductive Platform := BUTTON | SENSOR | SWITCH.

Definition PLATFORMS : list Platform := [BUTTON; SENSOR; SWITCH].

(** A [ConfigEntry]: its identifier and its [data] mapping. *)
Record ConfigEntry := {
  entry_id : string;
  entry_data : gmap string pyval;
}.

(** A [DockerAPI] object of [helpers.py], known by its identity. *)
Record DockerAPI := ApiObject { api_id : nat }.

#[global] Instance DockerAPI_eq_dec : EqDecision DockerAPI.
Proof. solve_decision. Defined.

(** What a host's dictionary [hass.data[DOMAIN][name]] holds under a key:
    the entry's data (under [CONFIG]) or the API object (under [API]). *)
Inductive slot :=
| SlotConfig (data : gmap string pyval)
| SlotApi (api : DockerAPI).

(** [hass.data]: domain, then host name, then [CONFIG] / [API]. *)
Abbreviation HassData := (gmap string (gmap pykey (gmap string slot))).

(** The calls this module makes on its collaborators. *)
Inductive call :=
| CallDockerAPI (data : gmap string pyval)
| CallInit (api : DockerAPI)
| CallRun (api : DockerAPI)
| CallDestroy (api : DockerAPI)
| CallForwardEntrySetups (entry : ConfigEntry) (platforms : list Platform)
| CallUnloadPlatforms (entry : ConfigEntry) (platforms : list Platform)
| CallLogError (name : pyval) (err : string)
| CallLogDebug (msg : string).

(** The state a coroutine runs in: [hass.data] and the calls made so far,
    each with the [hass.data] it could see. *)
Record Hass := {
  hass_data : HassData;
  hass_trace : list (HassData * call);
}.

(** The collaborators: how the [DockerAPI] class of [helpers.py], the
    config-entries manager and [str()] answer.  Each answer may depend on
    the [hass.data] visible at the call; none of them writes it. *)
Record World := {
  new_DockerAPI : HassData -> gmap string pyval -> result DockerAPI;
  api_init : HassData -> DockerAPI -> result unit;
  api_run : HassData -> DockerAPI -> result unit;
  api_destroy : HassData -> DockerAPI -> result unit;
  forward_entry_setups : HassData -> ConfigEntry -> list Platform -> result unit;
  unload_platforms : HassData -> ConfigEntry -> list Platform -> result bool;
  exn_str : exn -> string;
}.

(** Await a collaborator: record the call, then take its answer. *)
Definition await {A} (c : call) (answer : HassData -> result A) : M Hass A :=
  fun h =>
    (answer (hass_data h),
     {| hass_data := hass_data h;
        hass_trace := hass_trace h ++ [(hass_data h, c)] |}).

(** A call that returns nothing and cannot fail (logging). *)
Definition tell (c : call) : M Hass unit :=
  await c (fun _ => Ok tt).

Definition get_data : M Hass HassData := gets hass_data.

Definition set_data (d : HassData) : M Hass unit :=
  modify (fun h => {| hass_data := d; hass_trace := hass_trace h |}).

(** ** [async_setup_entry] *)

(** The frame of [async_setup_entry]: the state and the local [api]. *)
Record Frame := {
  frame_hass : Hass;
  frame_api : option DockerAPI;
}.

(** Run a computation on [hass] inside the frame. *)
Definition on_hass {A} (c : M Hass A) : M Frame A :=
  fun f =>
    let '(r, h) := c (frame_hass f) in
    (r, {| frame_hass := h; frame_api := frame_api f |}).

Definition set_api (a : option DockerAPI) : M Frame unit :=
  modify (fun f => {| frame_hass := frame_hass f; frame_api := a |}).

Definition get_api : M Frame (option DockerAPI) := gets frame_api.

Section setup_entry.
Context `{Consts} (w : World).

(** [hass.data[DOMAIN][entry.data[CONF_NAME]] = {}] *)
Definition store_host (entry : ConfigEntry) : M Hass unit :=
  d ← get_data;
  hosts ← eval (getitem d DOMAIN);
  name ← eval (getitem (entry_data entry) CONF_NAME);
  k ← eval (py_key name);
  set_data (<[DOMAIN := <[k := ∅]> hosts]> d).

(** [hass.data[DOMAIN][entry.data[CONF_NAME]][key] = value] *)
Definition store_slot (entry : ConfigEntry) (key : string) (value : slot)
  : M Hass unit :=
  d ← get_data;
  hosts ← eval (getitem d DOMAIN);
  name ← eval (getitem (entry_data entry) CONF_NAME);
  k ← eval (py_key name);
  host ← eval (getitem_key hosts k);
  set_data (<[DOMAIN := <[k := <[key := value]> host]> hosts]> d).

(** The three stores made once the API runs:
    [hass.data[DOMAIN][name] = {}], then [CONFIG], then [API]. *)
Definition store_entry (entry : ConfigEntry) (api : DockerAPI) : M Hass unit :=
  store_host entry;;
  store_slot entry CONFIG (SlotConfig (entry_data entry));;
  store_slot entry API (SlotApi api).

(** The body of the [try] statement. *)
Definition setup_entry_body (entry : ConfigEntry) : M Frame unit :=
  api ← on_hass (await (CallDockerAPI (entry_data entry))
                   (fun d => new_DockerAPI w d (entry_data entry)));
  set_api (Some api);;
  on_hass (await (CallInit api) (fun d => api_init w d api));;
  on_hass (await (CallRun api) (fun d => api_run w d api));;
  on_hass (store_entry entry api);;
  on_hass (await (CallForwardEntrySetups entry PLATFORMS)
             (fun d => forward_entry_setups w d entry PLATFORMS)).

(** The two [except] clauses, tried in order. *)
Definition setup_entry_handler (entry : ConfigEntry) (err : exn) : M Frame unit :=
  if is_ConfigEntryAuthFailed err then
    (* except ConfigEntryAuthFailed: raise *)
    raise err
  else
    (* except Exception as err: *)
    name ← eval (getitem (entry_data entry) CONF_NAME);
    on_hass (tell (CallLogError name (exn_str w err)));;
    api ← get_api;
    (* if api: an instance of a class is true unless the class says otherwise *)
    match api with
    | Some a => on_hass (await (CallDestroy a) (fun d => api_destroy w d a))
    | None => mret tt
    end;;
    (* raise ConfigEntryNotReady(f"Failed to setup {err}") from err *)
    raise (ConfigEntryNotReady ("Failed to setup " +:+ exn_str w err) (Some err)).

Definition setup_entry_frame (entry : ConfigEntry) : M Frame bool :=
  d ← on_hass get_data;
  (if bool_decide (d !! DOMAIN = None)
   then on_hass (set_data (<[DOMAIN := ∅]> d))
   else mret tt);;
  set_api None;;
  try_except (setup_entry_body entry) (setup_entry_handler entry);;
  mret true.

(** [async def async_setup_entry(hass, entry) -> bool] *)
Definition async_setup_entry (entry : ConfigEntry) : M Hass bool :=
  fun h =>
    let '(r, f) := setup_entry_frame entry
                     {| frame_hass := h; frame_api := None |} in
    (r, frame_hass f).

(** ** [async_unload_entry] *)

(** [x.destroy]: only the API object has the method. *)
Definition destroy_method (x : slot) : result DockerAPI :=
  match x with
  | SlotApi a => Ok a
  | SlotConfig _ =>
      Raise (AttributeError "'mappingproxy' object has no attribute 'destroy'")
  end.

(** [async def async_unload_entry(hass, entry)] *)
Definition async_unload_entry (entry : ConfigEntry) : M Hass bool :=
  tell (CallLogDebug "async_unload_entry");;
  d ← get_data;
  hosts ← eval (getitem d DOMAIN);
  name ← eval (getitem (entry_data entry) CONF_NAME);
  k ← eval (py_key name);
  host ← eval (getitem_key hosts k);
  x ← eval (getitem host API);
  a ← eval (destroy_method x);
  await (CallDestroy a) (fun d => api_destroy w d a);;
  await (CallUnloadPlatforms entry PLATFORMS)
    (fun d => unload_platforms w d entry PLATFORMS).

End setup_entry.

(** A recorded call other than [destroy()]. *)
Definition not_destroy (c : HassData * call) : Prop :=
  match c.2 with
  | CallDestroy _ => False
  | _ => True
  end.

(** ** What a run of [async_setup_entry] goes through

    These definitions name, in terms of the collaborators' answers alone,
    the situations the properties below speak of. *)
Section setup_entry_spec.
Context `{Consts} (w : World).

(** [hass.data] once [DOMAIN] is known to be a key. *)
Definition ensure_domain (d : HassData) : HassData :=
  if bool_decide (d !! DOMAIN = None) then <[DOMAIN := ∅]> d else d.

(** The key [entry.data[CONF_NAME]] selects in [hass.data[DOMAIN]]. *)
Definition host_key (entry : ConfigEntry) : result pykey :=
  name ← getitem (entry_data entry) CONF_NAME;
  py_key name.

(** The dictionary stored for a host. *)
Definition host_record (entry : ConfigEntry) (a : DockerAPI) : gmap string slot :=
  <[API := SlotApi a]> (<[CONFIG := SlotConfig (entry_data entry)]> ∅).

(** [hass.data] after the three stores for host [k]. *)
Definition with_host (d : HassData) (k : pykey) (r : gmap string slot) : HassData :=
  <[DOMAIN := <[k := r]> (default ∅ (d !! DOMAIN))]> d.

(** [setup_raises entry d api e]: started on [hass.data = d], the body of
    the [try] raises [e], the local [api] being [api] at that point. *)
Inductive setup_raises (entry : ConfigEntry) (d : HassData)
  : option DockerAPI -> exn -> Prop :=
| raises_in_constructor e :
    new_DockerAPI w d (entry_data entry) = Raise e ->
    setup_raises entry d None e
| raises_in_init a e :
    new_DockerAPI w d (entry_data entry) = Ok a ->
    api_init w d a = Raise e ->
    setup_raises entry d (Some a) e
| raises_in_run a e :
    new_DockerAPI w d (entry_data entry) = Ok a ->
    api_init w d a = Ok tt ->
    api_run w d a = Raise e ->
    setup_raises entry d (Some a) e
| raises_in_store a e :
    new_DockerAPI w d (entry_data entry) = Ok a ->
    api_init w d a = Ok tt ->
    api_run w d a = Ok tt ->
    host_key entry = Raise e ->
    setup_raises entry d (Some a) e
| raises_in_platform_setup a k e :
    new_DockerAPI w d (entry_data entry) = Ok a ->
    api_init w d a = Ok tt ->
    api_run w d a = Ok tt ->
    host_key entry = Ok k ->
    forward_entry_setups w (with_host d k (host_record entry a)) entry PLATFORMS
      = Raise e ->
    setup_raises entry d (Some a) e.

(** [hass.data[DOMAIN][k][key]], when all three lookups succeed. *)
Definition lookup_slot (d : HassData) (k : pykey) (key : string) : option slot :=
  hosts ← d !! DOMAIN; host ← hosts !! k; host !! key.

(** [ConfigEntryNotReady(f"Failed to setup {err}")], raised [from err]. *)
Definition not_ready (err : exn) : exn :=
  ConfigEntryNotReady ("Failed to setup " +:+ exn_str w err) (Some err).

(** The API object [async_unload_entry] finds for the entry. *)
Definition stored_api (entry : ConfigEntry) (d : HassData) : result DockerAPI :=
  hosts ← getitem d DOMAIN;
  k ← host_key entry;
  host ← getitem_key hosts k;
  x ← getitem host API;
  destroy_method x.

End setup_entry_spec.

(** ** Validators of [voluptuous] and [homeassistant.helpers.config_validation]

    A validator takes a value and returns the validated (possibly coerced)
    value or raises [Invalid]. *)
Definition validator : Type := pyval -> result pyval.

(** What the validators need from Python's [str] and [int]: parsing a
    string as an integer ([int(s)], [None] when it raises [ValueError]) and
    [s.lower().strip()]. *)
Class Builtins := {
  int_of_str : string -> option Z;
  lower_strip : string -> string;
}.

(** [str(b)] and [str(z)] *)
Definition str_of_bool (b : bool) : string := if b then "True" else "False".
Definition str_of_int (z : Z) : string := pretty z.

(** [cv.string]: coerce to a string, except [None], lists and dictionaries. *)
Definition cv_string : validator := fun v =>
  match v with
  | VNone => Raise (Invalid "string value is None")
  | VStr s => Ok (VStr s)
  | VList _ | VDict _ => Raise (Invalid "value should be a string")
  | VBool b => Ok (VStr (str_of_bool b))
  | VInt z => Ok (VStr (str_of_int z))
  end.

(** [vol.Coerce(int)]: [int(v)], a [ValueError] or [TypeError] becoming
    [Invalid]. *)
Definition vol_Coerce_int `{Builtins} : validator := fun v =>
  match v with
  | VInt z => Ok (VInt z)
  | VBool b => Ok (VInt (if b then 1 else 0))
  | VStr s =>
      match int_of_str s with
      | Some z => Ok (VInt z)
      | None => Raise (Invalid "expected int")
      end
  | VNone | VList _ | VDict _ => Raise (Invalid "expected int")
  end.

(** [vol.Range(min=m)]: values below [m] and values that do not compare
    with an integer are refused. *)
Definition vol_Range_min (m : Z) : validator := fun v =>
  match v with
  | VInt z =>
      if (z <? m)%Z then Raise (Invalid "value must be at least the minimum") else Ok v
  | VBool b =>
      if ((if b then 1 else 0) <? m)%Z
      then Raise (Invalid "value must be at least the minimum") else Ok v
  | _ => Raise (Invalid "invalid value or type (must have a partial ordering)")
  end.

(** [vol.All(v1, v2, ...)]: each validator on the output of the one before. *)
Fixpoint vol_All (vs : list validator) : validator := fun v =>
  match vs with
  | [] => Ok v
  | f :: rest => v' ← f v; vol_All rest v'
  end.

(** [vol.Any(v1, v2, ...)]: the first validator that accepts. *)
Fixpoint vol_Any (vs : list validator) : validator := fun v =>
  match vs with
  | [] => Raise (Invalid "no valid value found")
  | f :: rest =>
      match f v with
      | Ok v' => Ok v'
      | Raise _ => vol_Any rest v
      end
  end.

(** The schema [None]: the value itself and nothing else. *)
Definition vol_None : validator := fun v =>
  match v with
  | VNone => Ok VNone
  | _ => Raise (Invalid "not a valid value")
  end.

(** [vol.In(container)] for a container of strings: only a string is equal
    to a member. *)
Definition vol_In (container : list string) : validator := fun v =>
  match v with
  | VStr s =>
      if bool_decide (s ∈ container) then Ok v
      else Raise (Invalid "value must be one of the container")
  | _ => Raise (Invalid "value must be one of the container")
  end.

(** Every item of a list through a validator, the first failure raised. *)
Fixpoint validate_items (f : validator) (l : list pyval) : result (list pyval) :=
  match l with
  | [] => Ok []
  | x :: rest => x' ← f x; rest' ← validate_items f rest; Ok (x' :: rest')
  end.

(** The schema [[v1, v2, ...]]: a list whose items each pass one of the
    validators. *)
Definition vol_Sequence (vs : list validator) : validator := fun v =>
  match v with
  | VList l => l' ← validate_items (vol_Any vs) l; Ok (VList l')
  | _ => Raise (Invalid "expected list")
  end.

(** The schema [dict]: an instance of the type. *)
Definition vol_dict : validator := fun v =>
  match v with
  | VDict _ => Ok v
  | _ => Raise (Invalid "expected dict")
  end.

(** [cv.ensure_list]: [None] is the empty list, a list is itself, anything
    else is wrapped. *)
Definition cv_ensure_list : validator := fun v =>
  match v with
  | VNone => Ok (VList [])
  | VList _ => Ok v
  | _ => Ok (VList [v])
  end.

(** [cv.boolean] *)
Definition cv_boolean `{Builtins} : validator := fun v =>
  match v with
  | VBool _ => Ok v
  | VStr s =>
      let s' := lower_strip s in
      if bool_decide (s' ∈ ["1"; "true"; "yes"; "on"; "enable"]) then Ok (VBool true)
      else if bool_decide (s' ∈ ["0"; "false"; "no"; "off"; "disable"]) then Ok (VBool false)
      else Raise (Invalid "invalid boolean value")
  | VInt z => Ok (VBool (negb (z =? 0)%Z))
  | _ => Raise (Invalid "invalid boolean value")
  end.

(** [cv.positive_int = vol.All(vol.Coerce(int), vol.Range(min=0))] *)
Definition cv_positive_int `{Builtins} : validator :=
  vol_All [vol_Coerce_int; vol_Range_min 0].

(** ** Dictionary schemas *)

(** [vol.Optional(key, default=...): validator] *)
Record Optional := {
  opt_key : string;
  opt_default : pyval;
  opt_check : validator;
}.

(** The defaults of the keys the data leaves out are put in first. *)
Definition with_defaults (schema : list Optional) (data : gmap string pyval)
  : gmap string pyval :=
  foldr (fun m acc =>
           match acc !! opt_key m with
           | Some _ => acc
           | None => <[opt_key m := opt_default m]> acc
           end) data schema.

(** The marker a key of the data falls under. *)
Definition find_marker (schema : list Optional) (k : string) : option Optional :=
  List.find (fun m => bool_decide (opt_key m = k)) schema.

(** One item of the data: a key no marker covers is an extra key. *)
Definition validate_item (schema : list Optional) (k : string) (v : pyval)
  : result pyval :=
  match find_marker schema k with
  | Some m => opt_check m v
  | None => Raise (Invalid "extra keys not allowed")
  end.

(** [vol.Schema({...})] on a dictionary, with the default
    [extra=PREVENT_EXTRA]: every item is validated, the errors are collected
    and raised together (their order follows the map, not the document). *)
Definition vol_Schema (schema : list Optional) (data : gmap string pyval)
  : result (gmap string pyval) :=
  let full := with_defaults schema data in
  let errors :=
    omap (fun kv : string * pyval =>
            match validate_item schema kv.1 kv.2 with
            | Ok _ => None
            | Raise e => Some e
            end) (map_to_list full) in
  match errors with
  | [] =>
      Ok (map_imap (fun k v =>
                      match validate_item schema k v with
                      | Ok v' => Some v'
                      | Raise _ => None
                      end) full)
  | _ :: _ => Raise (MultipleInvalid errors)
  end.

Section schema.
Context `{Consts} `{Builtins}.

(** The markers of [DOCKER_SCHEMA], in the order of the source. *)
Definition DOCKER_SCHEMA_markers : list Optional := [
  {| opt_key := CONF_NAME; opt_default := VStr DEFAULT_NAME;
     opt_check := cv_string |};
  {| opt_key := CONF_PREFIX; opt_default := VStr EmptyString;
     opt_check := cv_string |};
  {| opt_key := CONF_URL; opt_default := VNone;
     opt_check := vol_Any [cv_string; vol_None] |};
  {| opt_key := CONF_SCAN_INTERVAL; opt_default := VInt DEFAULT_SCAN_INTERVAL;
     opt_check := cv_positive_int |};
  {| opt_key := CONF_MONITORED_CONDITIONS; opt_default := VList [];
     opt_check := vol_All [cv_ensure_list;
                           vol_Sequence [vol_In MONITORED_CONDITIONS_LIST]] |};
  {| opt_key := CONF_CONTAINERS; opt_default := VList [];
     opt_check := cv_ensure_list |};
  {| opt_key := CONF_CONTAINERS_EXCLUDE; opt_default := VList [];
     opt_check := cv_ensure_list |};
  {| opt_key := CONF_RENAME; opt_default := VDict [];
     opt_check := vol_dict |};
  {| opt_key := CONF_RENAME_ENITITY; opt_default := VBool false;
     opt_check := cv_boolean |};
  {| opt_key := CONF_SENSORNAME; opt_default := VStr DEFAULT_SENSORNAME;
     opt_check := cv_string |};
  (* cv.ensure_list(cv.string) is the one-item list [cv.string], which as
     a schema is a list of strings *)
  {| opt_key := CONF_SWITCHENABLED; opt_default := VBool true;
     opt_check := vol_Any [cv_boolean; vol_Sequence [cv_string]] |};
  {| opt_key := CONF_BUTTONENABLED; opt_default := VBool false;
     opt_check := vol_Any [cv_boolean; vol_Sequence [cv_string]] |};
  {| opt_key := CONF_SWITCHNAME; opt_default := VStr DEFAULT_SWITCHNAME;
     opt_check := cv_string |};
  {| opt_key := CONF_BUTTONNAME; opt_default := VStr DEFAULT_BUTTONNAME;
     opt_check := cv_string |};
  {| opt_key := CONF_CERTPATH; opt_default := VStr EmptyString;
     opt_check := cv_string |};
  {| opt_key := CONF_RETRY; opt_default := VInt DEFAULT_RETRY;
     opt_check := cv_positive_int |};
  {| opt_key := CONF_MEMORYCHANGE; opt_default := VInt 100;
     opt_check := cv_positive_int |};
  {| opt_key := CONF_PRECISION_CPU; opt_default := VInt PRECISION;
     opt_check := cv_positive_int |};
  {| opt_key := CONF_PRECISION_MEMORY_MB; opt_default := VInt PRECISION;
     opt_check := cv_positive_int |};
  {| opt_key := CONF_PRECISION_MEMORY_PERCENTAGE; opt_default := VInt PRECISION;
     opt_check := cv_positive_int |};
  {| opt_key := CONF_PRECISION_NETWORK_KB; opt_default := VInt PRECISION;
     opt_check := cv_positive_int |};
  {| opt_key := CONF_PRECISION_NETWORK_MB; opt_default := VInt PRECISION;
     opt_check := cv_positive_int |}
].

(** [DOCKER_SCHEMA = vol.Schema({...})] *)
Definition DOCKER_SCHEMA : gmap string pyval -> result (gmap string pyval) :=
  vol_Schema DOCKER_SCHEMA_markers.

(** The recognized options. *)
Definition recognized_options : list string :=
  opt_key <$> DOCKER_SCHEMA_markers.

(** The options validated by [cv.positive_int]. *)
Definition integer_options : list string :=
  [CONF_SCAN_INTERVAL; CONF_RETRY; CONF_MEMORYCHANGE; CONF_PRECISION_CPU;
   CONF_PRECISION_MEMORY_MB; CONF_PRECISION_MEMORY_PERCENTAGE;
   CONF_PRECISION_NETWORK_KB; CONF_PRECISION_NETWORK_MB].

End schema.

(** ** [async_setup] *)

(** [len(v)] *)
Definition py_len (v : pyval) : result nat :=
  match v with
  | VList l => Ok (length l)
  | VStr s => Ok (String.length s)
  | VDict d => Ok (length d)
  | VNone => Raise (TypeError "object of type 'NoneType' has no len()")
  | VBool _ => Raise (TypeError "object of type 'bool' has no len()")
  | VInt _ => Raise (TypeError "object of type 'int' has no len()")
  end.

(** [v == a] for a string [a]: only a string is equal to a string. *)
Definition py_eq_str (a : string) (v : pyval) : bool :=
  match v with
  | VStr s => bool_decide (s = a)
  | _ => false
  end.

(** [a in v] for a string [a]: an item of a list, a key of a dictionary, a
    substring of a string. *)
Definition py_contains_str (a : string) (v : pyval) : result bool :=
  match v with
  | VList l => Ok (existsb (py_eq_str a) l)
  | VDict d => Ok (existsb (fun kv => bool_decide (kv.1 = a)) d)
  | VStr s => Ok (bool_decide (is_Some (String.index 0 a s)))
  | VNone => Raise (TypeError "argument of type 'NoneType' is not iterable")
  | VBool _ => Raise (TypeError "argument of type 'bool' is not iterable")
  | VInt _ => Raise (TypeError "argument of type 'int' is not iterable")
  end.

(** The list without its first item equal to [a], if there is one. *)
Fixpoint remove_first (a : string) (l : list pyval) : option (list pyval) :=
  match l with
  | [] => None
  | x :: rest =>
      if py_eq_str a x then Some rest
      else cons x <$> remove_first a rest
  end.

(** [v.remove(a)]: the value the list object then holds. *)
Definition py_list_remove (a : string) (v : pyval) : result pyval :=
  match v with
  | VList l =>
      match remove_first a l with
      | Some l' => Ok (VList l')
      | None => Raise (ValueError "list.remove(x): x not in list")
      end
  | _ => Raise (AttributeError "object has no attribute 'remove'")
  end.

(** [config_entries.SOURCE_IMPORT] *)
Definition SOURCE_IMPORT : string := "import".

(** What [async_setup] leaves behind besides its return value. *)
Inductive setup_effect :=
| LogStartingFlow (name : option pyval) (entry : gmap string pyval)
| CreateImportTask (domain source : string) (data : gmap string pyval).

(** The state [async_setup] runs in: the configuration, whose entries it
    updates in place, and the effects so far. *)
Record Setup := {
  setup_config : gmap string (list (gmap string pyval));
  setup_effects : list setup_effect;
}.

(** How a statement of a loop body completes: it falls through to the next
    iteration or returns from the function. *)
Inductive completion (A : Type) :=
| Next
| Return (a : A).
Arguments Next {A}.
Arguments Return {A} a.

(** [for x in items: body] *)
Fixpoint for_each {S I A} (items : list I) (body : I -> M S (completion A))
  : M S (completion A) :=
  match items with
  | [] => mret Next
  | x :: rest =>
      c ← body x;
      match c with
      | Return a => mret (Return a)
      | Next => for_each rest body
      end
  end.

Section setup.
Context `{Consts}.

(** The [i]-th entry of [config[DOMAIN]], as it is now. *)
Definition the_entry (i : nat) : M Setup (gmap string pyval) :=
  cfg ← gets setup_config;
  entries ← eval (getitem cfg DOMAIN);
  match entries !! i with
  | Some entry => mret entry
  | None => raise (OtherException "IndexError" "list index out of range")
  end.

(** [entry[key]] *)
Definition entry_getitem (i : nat) (key : string) : M Setup pyval :=
  entry ← the_entry i;
  eval (getitem entry key).

(** [entry[key] = v], on the entry object the list holds. *)
Definition entry_setitem (i : nat) (key : string) (v : pyval) : M Setup unit :=
  entry ← the_entry i;
  modify (fun s =>
    {| setup_config :=
         <[DOMAIN := <[i := <[key := v]> entry]>
                       (default [] (setup_config s !! DOMAIN))]> (setup_config s);
       setup_effects := setup_effects s |}).

Definition effect (e : setup_effect) : M Setup unit :=
  modify (fun s =>
    {| setup_config := setup_config s;
       setup_effects := setup_effects s ++ [e] |}).

(** The body of the loop, for the [i]-th entry. *)
Definition setup_loop_body (i : nat) : M Setup (completion bool) :=
  (* if len(entry[CONF_MONITORED_CONDITIONS]) == 0: *)
  conditions ← entry_getitem i CONF_MONITORED_CONDITIONS;
  n ← eval (py_len conditions);
  (if bool_decide (n = 0%nat) then
     entry_setitem i CONF_MONITORED_CONDITIONS
       (VList (VStr <$> MONITORED_CONDITIONS_LIST));;
     copy ← entry_getitem i CONF_MONITORED_CONDITIONS;
     removed ← eval (py_list_remove CONTAINER_INFO_ALLINONE copy);
     entry_setitem i CONF_MONITORED_CONDITIONS removed
   else mret tt);;
  (* if len(...) == 1 and CONTAINER_INFO_ALLINONE in ...: *)
  conditions ← entry_getitem i CONF_MONITORED_CONDITIONS;
  n ← eval (py_len conditions);
  only_allinone ←
    (if bool_decide (n = 1%nat)
     then conditions ← entry_getitem i CONF_MONITORED_CONDITIONS;
          eval (py_contains_str CONTAINER_INFO_ALLINONE conditions)
     else mret false);
  (if only_allinone : bool then
     entry_setitem i CONF_MONITORED_CONDITIONS
       (VList (VStr <$> (MONITORED_CONDITIONS_LIST ++ [CONTAINER_INFO_ALLINONE])%list))
   else mret tt);;
  (* name = entry.get(CONF_NAME) *)
  entry ← the_entry i;
  effect (LogStartingFlow (entry !! CONF_NAME) entry);;
  entry ← the_entry i;
  effect (CreateImportTask DOMAIN SOURCE_IMPORT entry);;
  mret (Return true).

(** [async def async_setup(hass, config) -> bool] *)
Definition async_setup : M Setup bool :=
  cfg ← gets setup_config;
  match cfg !! DOMAIN with
  | None => mret true
  | Some entries =>
      c ← for_each (seq 0 (length entries)) setup_loop_body;
      match c with
      | Return b => mret b
      | Next => mret true
      end
  end.

(** The entry with its monitored conditions replaced. *)
Definition with_conditions (entry : gmap string pyval) (l : list string)
  : gmap string pyval :=
  <[CONF_MONITORED_CONDITIONS := VList (VStr <$> l)]> entry.

(** The list without the first occurrence of [a]. *)
Fixpoint without_first (a : string) (l : list string) : list string :=
  match l with
  | [] => []
  | x :: rest => if bool_decide (x = a) then rest else x :: without_first a rest
  end.

(** How often [a] occurs in [l]. *)
Definition occurrences (a : string) (l : list string) : nat :=
  length (filter (fun x => x = a) l).

(** What the two [if] statements of the loop body make of the monitored
    conditions [l] of an entry. *)
Definition expanded_conditions (l : list pyval) : list pyval :=
  let l1 :=
    match l with
    | [] => VStr <$> without_first CONTAINER_INFO_ALLINONE MONITORED_CONDITIONS_LIST
    | _ :: _ => l
    end in
  if bool_decide (length l1 = 1%nat)
     && existsb (py_eq_str CONTAINER_INFO_ALLINONE) l1
  then VStr <$> (MONITORED_CONDITIONS_LIST ++ [CONTAINER_INFO_ALLINONE])%list
  else l1.

(** The state in which [config[DOMAIN]] is the list [e :: rest]. *)
Definition at_first (cfg : gmap string (list (gmap string pyval)))
    (e : gmap string pyval) (rest : list (gmap string pyval))
    (effs : list setup_effect) : Setup :=
  {| setup_config := <[DOMAIN := e :: rest]> cfg; setup_effects := effs |}.

End setup.

(** ** CPU percentage of the Stats Sampler *)

(** One stats fetch: the cumulative CPU and system counters and the number
    of online CPUs. *)
Record CpuSample := {
  cpu_total : N;
  system_total : N;
  online_cpus : N;
}.

(** A derived reading: a percentage, or unavailable. *)
Inductive reading :=
| Unavailable
| Percent (q : Q).

Definition cpu_delta (prev cur : CpuSample) : Z :=
  Z.of_N (cpu_total cur) - Z.of_N (cpu_total prev).

Definition system_delta (prev cur : CpuSample) : Z :=
  Z.of_N (system_total cur) - Z.of_N (system_total prev).

(** Modelled from the spec: the CPU percentage of a stats fetch, computed by
    [helpers.py], which is not part of the sources at hand.  Section 4.3:
    [(cpu_delta / system_delta) * online_cpus * 100] from the previous
    cumulative counters stored on the container's record; unavailable when
    there is no previous sample or [system_delta <= 0].  Rational numbers
    stand for the floating point ones. *)
Definition cpu_percentage (prev : option CpuSample) (cur : CpuSample) : reading :=
  match prev with
  | None => Unavailable
  | Some p =>
      if (system_delta p cur <=? 0)%Z then Unavailable
      else Percent (inject_Z (cpu_delta p cur) / inject_Z (system_delta p cur)
                    * inject_Z (Z.of_N (online_cpus cur)) * 100)%Q
  end.

(** What happens to a container's sampler: a stats fetch, or a (re)start
    of the container or of the connection, after which no previous sample
    is kept. *)
Inductive tick :=
| Fetch (s : CpuSample)
| Restart.


(** Modelled from the spec: the readings a sequence of ticks produces, one
    per fetch, starting with [prev] as the previous sample. *)
Fixpoint sampler_readings (prev : option CpuSample) (ticks : list tick) : list reading :=
  match ticks with
  | [] => []
  | Fetch s :: rest => cpu_percentage prev s :: sampler_readings (Some s) rest
  | Restart :: rest => sampler_readings None rest
  end.

(** The cumulative CPU counter never runs backwards between two fetches
    that follow each other without a restart. *)
Fixpoint cumulative (prev : option CpuSample) (ticks : list tick) : Prop :=
  match ticks with
  | [] => True
  | Fetch s :: rest =>
      match prev with
      | Some p => (cpu_total p <= cpu_total s)%N
      | None => True
      end /\ cumulative (Some s) rest
  | Restart :: rest => cumulative None rest
  end.

Definition nonnegative (r : reading) : Prop :=
  match r with
  | Unavailable => True
  | Percent q => (0 <= q)%Q
  end.



(** ** Sample values

    Values for the constants and collaborators, used to run the definitions
    on concrete inputs. *)

#[export] Instance example_consts : Consts := {|
  DOMAIN := "monitor_docker";
  CONFIG := "config";
  API := "api";
  CONF_NAME := "name";
  CONF_PREFIX := "prefix";
  CONF_URL := "url";
  CONF_SCAN_INTERVAL := "scan_interval";
  CONF_MONITORED_CONDITIONS := "monitored_conditions";
  CONF_CONTAINERS := "containers";
  CONF_CONTAINERS_EXCLUDE := "containers_exclude";
  CONF_RENAME := "rename";
  CONF_RENAME_ENITITY := "rename_entity";
  CONF_SENSORNAME := "sensorname";
  CONF_SWITCHENABLED := "switchenabled";
  CONF_BUTTONENABLED := "buttonenabled";
  CONF_SWITCHNAME := "switchname";
  CONF_BUTTONNAME := "buttonname";
  CONF_CERTPATH := "certpath";
  CONF_RETRY := "retry";
  CONF_MEMORYCHANGE := "memorychange";
  CONF_PRECISION_CPU := "precision_cpu";
  CONF_PRECISION_MEMORY_MB := "precision_memory_mb";
  CONF_PRECISION_MEMORY_PERCENTAGE := "precision_memory_percentage";
  CONF_PRECISION_NETWORK_KB := "precision_network_kb";
  CONF_PRECISION_NETWORK_MB := "precision_network_mb";
  DEFAULT_NAME := "Docker";
  DEFAULT_SCAN_INTERVAL := 10;
  DEFAULT_SENSORNAME := "{name} {sensor}";
  DEFAULT_SWITCHNAME := "{name}";
  DEFAULT_BUTTONNAME := "{name} Restart";
  DEFAULT_RETRY := 60;
  PRECISION := 2;
  CONTAINER_INFO_ALLINONE := "allinone";
  MONITORED_CONDITIONS_LIST :=
    ["version"; "state"; "status"; "allinone"; "cpu_percentage"];
|}.

(** No string parses as an integer and strings are already normalised:
    enough for inputs that hold no strings where numbers are expected. *)
#[export] Instance example_builtins : Builtins := {|
  int_of_str := fun _ => None;
  lower_strip := fun s => s;
|}.

(** A host entry named [nas]. *)
Definition example_entry : ConfigEntry :=
  {| entry_id := "entry-1";
     entry_data := {[ "name" := VStr "nas"; "url" := VStr "tcp://nas:2375" ]} |}.

Definition example_api : DockerAPI := ApiObject 1.

(** A world in which every collaborator succeeds. *)
Definition world_ok : World :=
  {| new_DockerAPI := fun _ _ => Ok example_api;
     api_init := fun _ _ => Ok tt;
     api_run := fun _ _ => Ok tt;
     api_destroy := fun _ _ => Ok tt;
     forward_entry_setups := fun _ _ _ => Ok tt;
     unload_platforms := fun _ _ _ => Ok true;
     exn_str := fun _ => "error" |}.

(** A world in which [init()] is refused by the daemon. *)
Definition world_auth_failed : World :=
  {| new_DockerAPI := fun _ _ => Ok example_api;
     api_init := fun _ _ => Raise (ConfigEntryAuthFailed "certificate rejected");
     api_run := fun _ _ => Ok tt;
     api_destroy := fun _ _ => Ok tt;
     forward_entry_setups := fun _ _ _ => Ok tt;
     unload_platforms := fun _ _ _ => Ok true;
     exn_str := fun _ => "error" |}.

(** A world in which [run()] cannot reach the daemon. *)
Definition world_unreachable : World :=
  {| new_DockerAPI := fun _ _ => Ok example_api;
     api_init := fun _ _ => Ok tt;
     api_run := fun _ _ => Raise (OtherException "ClientConnectorError" "cannot connect");
     api_destroy := fun _ _ => Ok tt;
     forward_entry_setups := fun _ _ _ => Ok tt;
     unload_platforms := fun _ _ _ => Ok true;
     exn_str := fun _ => "error" |}.

(** A world in which [run()] cannot reach the daemon and [destroy()]
    fails in its turn. *)
Definition world_destroy_fails : World :=
  {| new_DockerAPI := fun _ _ => Ok example_api;
     api_init := fun _ _ => Ok tt;
     api_run := fun _ _ => Raise (OtherException "ClientConnectorError" "cannot connect");
     api_destroy := fun _ _ => Raise (OtherException "OSError" "connection lost");
     forward_entry_setups := fun _ _ _ => Ok tt;
     unload_platforms := fun _ _ _ => Ok true;
     exn_str := fun _ => "error" |}.

(** A freshly started host application. *)
Definition empty_hass : Hass := {| hass_data := ∅; hass_trace := [] |}.

(** A YAML host entry that sets the scan interval to zero. *)
Definition zero_interval_entry : gmap string pyval :=
  {[ "scan_interval" := VInt 0 ]}.

(** Two YAML host entries, the first without monitored conditions, the
    second with the all-in-one condition alone. *)
Definition yaml_first : gmap string pyval :=
  {[ "name" := VStr "nas"; "monitored_conditions" := VList [] ]}.

Definition yaml_second : gmap string pyval :=
  {[ "name" := VStr "pi"; "monitored_conditions" := VList [VStr "allinone"] ]}.

Definition example_setup (entries : list (gmap string pyval)) : Setup :=
  {| setup_config := {[ "monitor_docker" := entries ]}; setup_effects := [] |}.


(** The scenario of section 8 of the specification: CPU counters
    (cpu=100, sys=1000) then (cpu=150, sys=1200) with 2 online CPUs. *)
Definition scenario_ticks : list tick :=
  [Fetch {| cpu_total := 100; system_total := 1000; online_cpus := 2 |};
   Fetch {| cpu_total := 150; system_total := 1200; online_cpus := 2 |}].

(** ** Logging *)

(** The levels this module logs at. *)
Inductive log_level := DEBUG | INFO | WARNING | ERROR.

(** A call of [_LOGGER]: the level, the format string and its arguments. *)
Record log_record := {
  record_level : log_level;
  record_msg : string;
  record_args : list pyval;
}.

(** ** [async_reset_platform] *)

Section reset_platform.
Context `{Consts}.

(** [async def async_reset_platform(hass, integration_name) -> None]: the
    function reads [hass.data] and writes the log. *)
Definition async_reset_platform (d : HassData) (integration_name : string)
  : M (list log_record) unit :=
  if bool_decide (d !! DOMAIN = None) then
    modify (fun l => l ++ [{| record_level := ERROR;
                              record_msg := "Monitor_docker not loaded";
                              record_args := [] |}])
  else mret tt.

End reset_platform.

(** ** [async_migrate_entry] *)

(** [DockerConfigFlow.VERSION] and [DockerConfigFlow.MINOR_VERSION] of
    [config_flow.py]. *)
Class FlowVersion := {
  VERSION : Z;
  MINOR_VERSION : Z;
}.

(** A config entry with its version attributes. *)
Record VersionedEntry := {
  ve_entry : ConfigEntry;
  version : Z;
  minor_version : Z;
}.

(** What [async_migrate_entry] does to the outside, in order. *)
Inductive migrate_call :=
| MigrateLog (r : log_record)
| CallUpdateEntry (entry : VersionedEntry) (data : gmap string pyval)
    (new_version new_minor_version : Z).

(** The state the migration runs in: the entry object and the calls made
    so far. *)
Record Migration := {
  mig_entry : VersionedEntry;
  mig_trace : list migrate_call;
}.

(** [hass.config_entries.async_update_entry(entry, data=..., version=...,
    minor_version=...)]: the entry object as the call leaves it, or the
    exception the call raises. *)
Definition update_entry : Type :=
  VersionedEntry -> gmap string pyval -> Z -> Z -> result VersionedEntry.

Definition migrate_log (level : log_level) (msg : string) (args : list pyval)
  : M Migration unit :=
  modify (fun s =>
    {| mig_entry := mig_entry s;
       mig_trace := mig_trace s ++
         [MigrateLog {| record_level := level; record_msg := msg;
                        record_args := args |}] |}).

(** [isinstance(err, MigrateError)] for the class the function declares. *)
Definition is_MigrateError (e : exn) : bool :=
  match e with
  | OtherException cls _ => bool_decide (cls = "MigrateError")
  | _ => false
  end.

Section migrate.
Context `{FlowVersion} (async_update_entry : update_entry) (str : exn -> string).

(** The body of the [try] statement: every step of it is commented out. *)
Definition migrate_steps : M Migration (completion bool) :=
  v ← gets (fun s => version (mig_entry s));
  (if (v =? 1)%Z then (* pass *) mret tt else mret tt);;
  mret Next.

(** [except MigrateError as err] *)
Definition migrate_handler (err : exn)
  : M Migration (completion bool) :=
  if is_MigrateError err then
    e ← gets mig_entry;
    migrate_log ERROR "Error while upgrading from version %s.%s to %s.%s"
      [VInt (version e); VInt (minor_version e); VInt VERSION; VInt MINOR_VERSION];;
    migrate_log ERROR (str err) [];;
    mret (Return false)
  else raise err.

(** [async def async_migrate_entry(hass, entry) -> bool] *)
Definition async_migrate_entry : M Migration bool :=
  e ← gets mig_entry;
  migrate_log DEBUG "Attempting migrating configuration from version %s.%s"
    [VInt (version e); VInt (minor_version e)];;
  let installed_version := VERSION in
  let installed_minor_version := MINOR_VERSION in
  (* new_data = {**entry.data} *)
  new_data ← gets (fun s => entry_data (ve_entry (mig_entry s)));
  e ← gets mig_entry;
  if (version e >? installed_version)%Z then
    migrate_log WARNING "Downgrading major version from %s to %s is not allowed"
      [VInt (version e); VInt installed_version];;
    mret false
  else if (version e =? installed_version)%Z
          && (minor_version e >? installed_minor_version)%Z then
    migrate_log WARNING
      "Downgrading minor version from %s.%s to %s.%s is not allowed"
      [VInt (version e); VInt (minor_version e);
       VInt installed_version; VInt installed_minor_version];;
    mret false
  else
    c ← try_except migrate_steps migrate_handler;
    match c with
    | Return b => mret b
    | Next =>
        e ← gets mig_entry;
        e' ← (fun s =>
                (async_update_entry e new_data installed_version
                   installed_minor_version,
                 {| mig_entry := mig_entry s;
                    mig_trace := mig_trace s ++
                      [CallUpdateEntry e new_data installed_version
                         installed_minor_version] |}));
        modify (fun s => {| mig_entry := e'; mig_trace := mig_trace s |});;
        e ← gets mig_entry;
        migrate_log INFO
          "Migration configuration from version %s.%s to %s.%s successful"
          [VInt (version e); VInt (minor_version e);
           VInt installed_version; VInt installed_minor_version];;
        mret true
    end.

(** The entry's version is ahead of the installed one. *)
Definition newer_than_installed (e : VersionedEntry) : Prop :=
  (VERSION < version e)%Z
  \/ (version e = VERSION /\ (MINOR_VERSION < minor_version e)%Z).

End migrate.

(** A recorded call other than [async_update_entry]. *)
Definition not_update (c : migrate_call) : Prop :=
  match c with
  | CallUpdateEntry _ _ _ _ => False
  | MigrateLog _ => True
  end.

(** ** [CONFIG_SCHEMA] *)

Section config_schema.
Context `{Consts} `{Builtins}.

(** [DOCKER_SCHEMA] as a validator of values: the value has to be a
    dictionary.  A dictionary value lists each of its keys once. *)
Definition DOCKER_SCHEMA_validator : validator := fun v =>
  match v with
  | VDict d =>
      out ← DOCKER_SCHEMA (list_to_map d);
      Ok (VDict (map_to_list out))
  | _ => Raise (Invalid "expected a dictionary")
  end.

(** [CONFIG_SCHEMA = vol.Schema({DOMAIN: vol.All(cv.ensure_list,
    [vol.Any(DOCKER_SCHEMA)])}, extra=vol.ALLOW_EXTRA)]: the key [DOMAIN] is
    not required, and the other keys are let through as they are. *)
Definition CONFIG_SCHEMA (config : gmap string pyval)
  : result (gmap string pyval) :=
  match config !! DOMAIN with
  | Some v =>
      v' ← vol_All [cv_ensure_list;
                    vol_Sequence [vol_Any [DOCKER_SCHEMA_validator]]] v;
      Ok (<[DOMAIN := v']> config)
  | None => Ok config
  end.

End config_schema.

(** ** Steps of the loop body of [async_setup] *)

Section setup_steps.
Context `{Consts}.

(** [e'] is [e] but for its monitored conditions. *)
Definition same_options (e' e : gmap string pyval) : Prop :=
  forall key, key <> CONF_MONITORED_CONDITIONS -> e' !! key = e !! key.

(** A step that, run when [config[DOMAIN]] starts with some entry followed
    by [rest], touches nothing but that entry's monitored conditions. *)
Definition quiet (cfg : gmap string (list (gmap string pyval)))
    (rest : list (gmap string pyval)) (effs : list setup_effect)
    {A} (c : M Setup A) : Prop :=
  forall e, exists r e',
    same_options e' e
    /\ c (at_first cfg e rest effs) = (r, at_first cfg e' rest effs).

(** A statement that ends by returning [True] after asking for the import
    of the first entry, or by raising without having asked. *)
Definition imports_or_raises (cfg : gmap string (list (gmap string pyval)))
    (rest : list (gmap string pyval)) (effs : list setup_effect)
    (c : M Setup (completion bool)) : Prop :=
  forall e, exists e',
    same_options e' e
    /\ (c (at_first cfg e rest effs)
        = (Ok (Return true),
           at_first cfg e' rest
             (effs ++ [LogStartingFlow (e' !! CONF_NAME) e';
                       CreateImportTask DOMAIN SOURCE_IMPORT e']))
        \/ exists err,
             c (at_first cfg e rest effs) = (Raise err, at_first cfg e' rest effs)).

End setup_steps.

(** ** More sample values *)

(** A host entry that lacks its name. *)
Definition nameless_entry : ConfigEntry :=
  {| entry_id := "entry-2";
     entry_data := {[ "url" := VStr "tcp://nas:2375" ]} |}.

(** A world in which the platforms fail to set up. *)
Definition world_platform_failed : World :=
  {| new_DockerAPI := fun _ _ => Ok example_api;
     api_init := fun _ _ => Ok tt;
     api_run := fun _ _ => Ok tt;
     api_destroy := fun _ _ => Ok tt;
     forward_entry_setups := fun _ _ _ =>
       Raise (OtherException "ValueError" "platform not found");
     unload_platforms := fun _ _ _ => Ok true;
     exn_str := fun _ => "error" |}.

(** A world in which every collaborator succeeds and each API object is
    numbered after the hosts stored when it is made. *)
Definition world_counting : World :=
  {| new_DockerAPI := fun d _ =>
       Ok (ApiObject (S (size (default ∅ (d !! "monitor_docker")))));
     api_init := fun _ _ => Ok tt;
     api_run := fun _ _ => Ok tt;
     api_destroy := fun _ _ => Ok tt;
     forward_entry_setups := fun _ _ _ => Ok tt;
     unload_platforms := fun _ _ _ => Ok true;
     exn_str := fun _ => "error" |}.

(** The installed config flow is at version 1.2. *)
#[export] Instance example_flow_version : FlowVersion :=
  {| VERSION := 1; MINOR_VERSION := 2 |}.

(** The sample entry at version 1.1 and at version 2.0. *)
Definition older_entry : VersionedEntry :=
  {| ve_entry := example_entry; version := 1; minor_version := 1 |}.

Definition newer_entry : VersionedEntry :=
  {| ve_entry := example_entry; version := 2; minor_version := 0 |}.

(** An update that stores what it is given. *)
Definition example_update : update_entry :=
  fun e data v mv =>
    Ok {| ve_entry := {| entry_id := entry_id (ve_entry e); entry_data := data |};
          version := v; minor_version := mv |}.

(** A YAML host entry that names two conditions. *)
Definition yaml_two_conditions : gmap string pyval :=
  {[ "name" := VStr "nas";
     "monitored_conditions" := VList [VStr "state"; VStr "status"] ]}.

(** A YAML document with one host, given as a mapping, and another
    integration. *)
Definition example_config : gmap string pyval :=
  {[ "monitor_docker" := VDict [("scan_interval", VInt 0)];
     "sensor" := VList [] ]}.

(** * Properties *)

(** ** Running [async_setup_entry] *)

Section setup_entry_run.
Context `{Consts} (w : World).

Lemma ensure_domain_lookup d :
  ensure_domain d !! DOMAIN = Some (default ∅ (d !! DOMAIN)).
Proof.
  unfold ensure_domain. case_bool_decide as E.
  - by rewrite lookup_insert_eq, E.
  - by destruct (d !! DOMAIN).
Qed.

Lemma ensure_domain_lookup_some d : is_Some (ensure_domain d !! DOMAIN).
Proof. rewrite ensure_domain_lookup. eauto. Qed.


Ltac unfold_body :=
  cbv [setup_entry_body setup_entry_handler mbind M_bind mret M_ret on_hass
       await tell get_data set_data gets modify eval raise set_api get_api];
  cbn [frame_hass frame_api hass_data hass_trace].

(** The three stores succeed as soon as the entry names a hashable host. *)
Lemma store_entry_run entry a h :
  is_Some (hass_data h !! DOMAIN) ->
  store_entry entry a h =
    match host_key entry with
    | Ok k => (Ok tt, {| hass_data := with_host (hass_data h) k (host_record entry a);
                         hass_trace := hass_trace h |})
    | Raise e => (Raise e, h)
    end.
Proof.
  intros [hosts Hd]. destruct h as [d t]. cbn [hass_data hass_trace] in *.
  unfold host_key, store_entry, store_host, store_slot, with_host, host_record.
  cbv [mbind M_bind mret M_ret get_data set_data gets modify eval result_bind].
  cbn [hass_data hass_trace]. unfold getitem at 1. rewrite Hd.
  destruct (getitem (entry_data entry) CONF_NAME) as [name|e]; [|done].
  destruct (py_key name) as [k|e]; [|done].
  unfold getitem, getitem_key.
  repeat (cbn [hass_data hass_trace default];
          rewrite ?lookup_insert_eq, ?insert_insert_eq).
  done.
Qed.

(** The function is its [try] statement run on a [hass.data] that has the
    domain. *)
Lemma async_setup_entry_run entry h :
  async_setup_entry w entry h =
    let '(r, f) :=
      try_except (setup_entry_body w entry) (setup_entry_handler w entry)
        {| frame_hass := {| hass_data := ensure_domain (hass_data h);
                            hass_trace := hass_trace h |};
           frame_api := None |} in
    (r ≫= (fun _ => Ok true), frame_hass f).
Proof.
  unfold async_setup_entry, setup_entry_frame, ensure_domain.
  cbv [mbind M_bind mret M_ret on_hass get_data set_data gets modify set_api
       result_bind].
  destruct h as [d t]; cbn [frame_hass frame_api hass_data hass_trace].
  case_bool_decide; cbn [frame_hass frame_api hass_data hass_trace];
    by destruct (try_except _ _ _) as [[] ?].
Qed.

Lemma setup_entry_body_raises entry d t oa e :
  is_Some (d !! DOMAIN) ->
  setup_raises w entry d oa e ->
  exists calls d',
    setup_entry_body w entry
      {| frame_hass := {| hass_data := d; hass_trace := t |}; frame_api := None |}
    = (Raise e, {| frame_hass := {| hass_data := d'; hass_trace := t ++ calls |};
                   frame_api := oa |})
    /\ Forall not_destroy calls.
Proof.
  intros Hd Hr. destruct Hr; unfold_body.
  all: repeat first
       [ progress cbn [frame_hass frame_api hass_data hass_trace]
       | match goal with E : _ = _ |- _ => rewrite E end
       | rewrite store_entry_run by done ].
  all: rewrite <- ?app_assoc; cbn [app].
  all: eexists _, _; split; [reflexivity|].
  all: repeat constructor.
Qed.

Lemma setup_entry_body_ok entry d t f' :
  is_Some (d !! DOMAIN) ->
  setup_entry_body w entry
    {| frame_hass := {| hass_data := d; hass_trace := t |}; frame_api := None |}
  = (Ok tt, f') ->
  exists a k,
    new_DockerAPI w d (entry_data entry) = Ok a /\
    api_init w d a = Ok tt /\
    api_run w d a = Ok tt /\
    host_key entry = Ok k /\
    forward_entry_setups w (with_host d k (host_record entry a)) entry PLATFORMS
      = Ok tt /\
    f' = {| frame_hass :=
              {| hass_data := with_host d k (host_record entry a);
                 hass_trace := t ++ [(d, CallDockerAPI (entry_data entry));
                                     (d, CallInit a); (d, CallRun a);
                                     (with_host d k (host_record entry a),
                                      CallForwardEntrySetups entry PLATFORMS)] |};
            frame_api := Some a |}.
Proof.
  intros Hd. unfold_body.
  destruct (new_DockerAPI w d (entry_data entry)) as [a|] eqn:En; [|done].
  destruct (api_init w d a) as [[]|] eqn:Ei; [|done].
  destruct (api_run w d a) as [[]|] eqn:Er; [|done].
  rewrite store_entry_run by done. cbn [hass_data hass_trace].
  destruct (host_key entry) as [k|] eqn:Ek; [|done].
  cbn [hass_data hass_trace].
  destruct (forward_entry_setups w _ entry PLATFORMS) as [[]|] eqn:Ef; [|done].
  intros [= <-]. exists a, k. rewrite <- !app_assoc. done.
Qed.

Lemma setup_entry_handler_auth entry e f :
  is_ConfigEntryAuthFailed e = true ->
  setup_entry_handler w entry e f = (Raise e, f).
Proof. intros He. unfold setup_entry_handler. by rewrite He. Qed.

Lemma setup_entry_handler_other entry e d t oa name :
  is_ConfigEntryAuthFailed e = false ->
  entry_data entry !! CONF_NAME = Some name ->
  setup_entry_handler w entry e
    {| frame_hass := {| hass_data := d; hass_trace := t |}; frame_api := oa |}
  = match oa with
    | None =>
        (Raise (not_ready w e),
         {| frame_hass :=
              {| hass_data := d;
                 hass_trace := t ++ [(d, CallLogError name (exn_str w e))] |};
            frame_api := oa |})
    | Some a =>
        (api_destroy w d a ≫= (fun _ => Raise (not_ready w e)),
         {| frame_hass :=
              {| hass_data := d;
                 hass_trace := t ++ [(d, CallLogError name (exn_str w e));
                                     (d, CallDestroy a)] |};
            frame_api := oa |})
    end.
Proof.
  intros He Hn. unfold setup_entry_handler. rewrite He.
  unfold_body. unfold getitem. rewrite Hn.
  destruct oa as [a|]; cbn [frame_hass frame_api hass_data hass_trace].
  - rewrite <- app_assoc. by destruct (api_destroy w d a) as [[]|].
  - done.
Qed.

(** No handler ends by returning. *)
Lemma setup_entry_handler_raises entry e f b :
  (setup_entry_handler w entry e f).1 <> Ok b.
Proof.
  unfold setup_entry_handler.
  destruct (is_ConfigEntryAuthFailed e); [done|].
  unfold_body. destruct (getitem _ _) as [name|]; [|done].
  destruct (frame_api f) as [a|];
    cbn [frame_hass frame_api hass_data hass_trace]; [|done].
  by destruct (api_destroy w _ a).
Qed.

Lemma setup_auth_failure_run entry h oa e :
  setup_raises w entry (ensure_domain (hass_data h)) oa e ->
  is_ConfigEntryAuthFailed e = true ->
  exists calls d,
    async_setup_entry w entry h =
      (Raise e, {| hass_data := d; hass_trace := hass_trace h ++ calls |})
    /\ Forall not_destroy calls.
Proof.
  intros Hr He. rewrite async_setup_entry_run. unfold try_except.
  destruct (setup_entry_body_raises entry _ (hass_trace h) _ _
              (ensure_domain_lookup_some _) Hr) as (calls & d' & -> & Hc).
  rewrite setup_entry_handler_auth by done. by exists calls, d'.
Qed.

Lemma setup_other_failure_run entry h a e name :
  setup_raises w entry (ensure_domain (hass_data h)) (Some a) e ->
  is_ConfigEntryAuthFailed e = false ->
  entry_data entry !! CONF_NAME = Some name ->
  exists pre d,
    async_setup_entry w entry h =
      (api_destroy w d a ≫= (fun _ => Raise (not_ready w e)),
       {| hass_data := d;
          hass_trace := hass_trace h ++ pre ++
            [(d, CallLogError name (exn_str w e)); (d, CallDestroy a)] |})
    /\ Forall not_destroy pre.
Proof.
  intros Hr He Hn. rewrite async_setup_entry_run. unfold try_except.
  destruct (setup_entry_body_raises entry _ (hass_trace h) _ _
              (ensure_domain_lookup_some _) Hr) as (calls & d' & -> & Hc).
  rewrite (setup_entry_handler_other _ _ _ _ _ name) by done.
  exists calls, d'. split; [|done].
  cbn [frame_hass]. rewrite <- app_assoc.
  by destruct (api_destroy w d' a) as [[]|].
Qed.

Lemma async_setup_entry_ok entry h b h' :
  async_setup_entry w entry h = (Ok b, h') ->
  exists a k,
    let d := ensure_domain (hass_data h) in
    let d' := with_host d k (host_record entry a) in
    b = true /\
    new_DockerAPI w d (entry_data entry) = Ok a /\
    api_init w d a = Ok tt /\
    api_run w d a = Ok tt /\
    host_key entry = Ok k /\
    forward_entry_setups w d' entry PLATFORMS = Ok tt /\
    h' = {| hass_data := d';
            hass_trace := hass_trace h ++
              [(d, CallDockerAPI (entry_data entry)); (d, CallInit a);
               (d, CallRun a); (d', CallForwardEntrySetups entry PLATFORMS)] |}.
Proof.
  rewrite async_setup_entry_run. unfold try_except.
  destruct (setup_entry_body w entry _) as [[[]|e] f] eqn:Eb.
  - apply setup_entry_body_ok in Eb as (a & k & ? & ? & ? & ? & ? & ->);
      [|apply ensure_domain_lookup_some].
    intros [= <- <-]. by exists a, k.
  - pose proof (setup_entry_handler_raises entry e f) as Hh.
    destruct (setup_entry_handler w entry e f) as [[b'|] f']; [|done].
    by destruct (Hh b').
Qed.

(** C1, with what replaces [ConfigEntryNotReady] spelled out: whatever the
    body of the [try] raises during the setup of a host entry (in the
    constructor, [init()], [run()], the stores or the platform setup), the
    setup never returns a value.  A [ConfigEntryAuthFailed] reaches the
    caller as the very exception that was raised.  For any other exception
    the handler first reads the entry's host name for its log: when the
    entry has none, the [KeyError] of that lookup is what reaches the
    caller; otherwise, when no API object was made,
    [ConfigEntryNotReady], built from the exception and chained to it, is
    raised; otherwise [destroy()] is awaited on the API object, and
    [ConfigEntryNotReady] is raised when it returns, while an exception of
    [destroy()] reaches the caller in its place, whatever its class.
    [ConfigEntryNotReady] is never a [ConfigEntryAuthFailed]. *)
Theorem setup_failure_reported entry h oa e :
  setup_raises w entry (ensure_domain (hass_data h)) oa e ->
  let run := async_setup_entry w entry h in
  (is_ConfigEntryAuthFailed e = true -> run.1 = Raise e)
  /\ (is_ConfigEntryAuthFailed e = false ->
      match entry_data entry !! CONF_NAME, oa with
      | None, _ => run.1 = Raise (KeyError (KStr CONF_NAME))
      | Some _, None => run.1 = Raise (not_ready w e)
      | Some _, Some a =>
          run.1 = match api_destroy w (hass_data run.2) a with
                  | Ok _ => Raise (not_ready w e)
                  | Raise e' => Raise e'
                  end
      end)
  /\ is_ConfigEntryNotReady (not_ready w e) = true
  /\ is_ConfigEntryAuthFailed (not_ready w e) = false
  /\ (forall b, run.1 <> Ok b).
Proof.
  intros Hr run. subst run. split; [|split; [|split; [done|split; [done|]]]].
  - intros He.
    by destruct (setup_auth_failure_run entry h oa e Hr He) as (? & ? & -> & _).
  - intros He. destruct (entry_data entry !! CONF_NAME) as [name|] eqn:Hn.
    + destruct oa as [a|].
      * destruct (setup_other_failure_run entry h a e name Hr He Hn)
          as (pre & d & -> & _).
        cbn [fst snd hass_data]. by destruct (api_destroy w d a) as [[]|].
      * rewrite async_setup_entry_run. unfold try_except.
        destruct (setup_entry_body_raises entry _ (hass_trace h) _ _
                    (ensure_domain_lookup_some _) Hr) as (calls & d' & -> & _).
        by rewrite (setup_entry_handler_other _ _ _ _ _ name).
    + rewrite async_setup_entry_run. unfold try_except.
      destruct (setup_entry_body_raises entry _ (hass_trace h) _ _
                  (ensure_domain_lookup_some _) Hr) as (calls & d' & -> & _).
      unfold setup_entry_handler. rewrite He. unfold_body. unfold getitem.
      by rewrite Hn.
  - intros b. rewrite async_setup_entry_run. unfold try_except.
    destruct (setup_entry_body_raises entry _ (hass_trace h) _ _
                (ensure_domain_lookup_some _) Hr) as (calls & d' & -> & _).
    pose proof (setup_entry_handler_raises entry e
      {| frame_hass := {| hass_data := d'; hass_trace := hass_trace h ++ calls |};
         frame_api := oa |}) as Hh.
    destruct (setup_entry_handler _ _ _ _) as [[b'|] f']; [|done].
    by destruct (Hh b').
Qed.

(** C2: when the setup of a host entry that carries its name fails, after
    the API object was created, with an exception other than
    [ConfigEntryAuthFailed], the last two calls of the run are the error
    log and [destroy()] on that API, no [destroy()] was awaited earlier,
    and only then, [destroy()] having returned, is [ConfigEntryNotReady]
    raised (an exception of [destroy()] itself takes its place). *)
Theorem destroy_before_not_ready entry h a e :
  setup_raises w entry (ensure_domain (hass_data h)) (Some a) e ->
  is_ConfigEntryAuthFailed e = false ->
  is_Some (entry_data entry !! CONF_NAME) ->
  exists pre d name,
    hass_trace (async_setup_entry w entry h).2 =
      hass_trace h ++ pre ++
        [(d, CallLogError name (exn_str w e)); (d, CallDestroy a)]
    /\ Forall not_destroy pre
    /\ (api_destroy w d a = Ok tt ->
        (async_setup_entry w entry h).1 = Raise (not_ready w e))
    /\ (forall e', api_destroy w d a = Raise e' ->
        (async_setup_entry w entry h).1 = Raise e').
Proof.
  intros Hr He [name Hn].
  destruct (setup_other_failure_run entry h a e name Hr He Hn)
    as (pre & d & -> & Hpre).
  exists pre, d, name. cbn [fst snd hass_trace].
  repeat split; [done | by intros -> | by intros e' ->].
Qed.

(** C3: a setup that returns went, in this order and with nothing in
    between, through the constructor, [init()] (which returned), [run()]
    (which returned), and the forwarding of the entry to the platforms
    [PLATFORMS]; the [hass.data] the platforms were given is the one in
    which the API is stored under the host's name; the value returned is
    [True]. *)
Theorem setup_success_order entry h b h' :
  async_setup_entry w entry h = (Ok b, h') ->
  exists a k,
    let d := ensure_domain (hass_data h) in
    let d' := with_host d k (host_record entry a) in
    b = true /\
    new_DockerAPI w d (entry_data entry) = Ok a /\
    api_init w d a = Ok tt /\
    api_run w d a = Ok tt /\
    host_key entry = Ok k /\
    hass_trace h' = hass_trace h ++
      [(d, CallDockerAPI (entry_data entry)); (d, CallInit a);
       (d, CallRun a); (d', CallForwardEntrySetups entry PLATFORMS)] /\
    lookup_slot d' k API = Some (SlotApi a).
Proof.
  intros Hrun.
  apply async_setup_entry_ok in Hrun as (a & k & ? & ? & ? & ? & ? & ? & ->).
  exists a, k. cbn [hass_trace]. repeat split; try done.
  unfold lookup_slot, with_host, host_record. rewrite lookup_insert_eq. cbn.
  rewrite lookup_insert_eq. cbn. by rewrite lookup_insert_eq.
Qed.

(** C7: when the setup fails with [ConfigEntryAuthFailed], that exception
    reaches the caller and no [destroy()] is among the calls of the run,
    whatever was created before; when it fails with another exception,
    with an API object created and the entry carrying its name,
    [destroy()] on that API is among them. *)
Theorem auth_failure_skips_destroy entry h oa e :
  setup_raises w entry (ensure_domain (hass_data h)) oa e ->
  exists calls,
    hass_trace (async_setup_entry w entry h).2 = hass_trace h ++ calls
    /\ (is_ConfigEntryAuthFailed e = true ->
        (async_setup_entry w entry h).1 = Raise e
        /\ Forall not_destroy calls)
    /\ (is_ConfigEntryAuthFailed e = false ->
        is_Some (entry_data entry !! CONF_NAME) ->
        forall a, oa = Some a -> exists d, (d, CallDestroy a) ∈ calls).
Proof.
  intros Hr. destruct (is_ConfigEntryAuthFailed e) eqn:He.
  - destruct (setup_auth_failure_run entry h oa e Hr He) as (calls & d & -> & Hc).
    exists calls. by repeat split.
  - destruct (entry_data entry !! CONF_NAME) as [name|] eqn:Hn, oa as [a|].
    + destruct (setup_other_failure_run entry h a e name Hr He Hn)
        as (pre & d & -> & _).
      eexists. split; [reflexivity|]. split; [done|].
      intros _ _ a' [= <-]. exists d.
      rewrite !elem_of_app, !elem_of_cons. naive_solver.
    + rewrite async_setup_entry_run. unfold try_except.
      destruct (setup_entry_body_raises entry _ (hass_trace h) _ _
                  (ensure_domain_lookup_some _) Hr) as (calls & d' & -> & _).
      rewrite (setup_entry_handler_other _ _ _ _ _ name) by done.
      cbn [snd frame_hass hass_trace]. rewrite <- app_assoc.
      eexists. split; [reflexivity|]. by split.
    + rewrite async_setup_entry_run. unfold try_except.
      destruct (setup_entry_body_raises entry _ (hass_trace h) _ _
                  (ensure_domain_lookup_some _) Hr) as (calls & d' & -> & _).
      destruct (setup_entry_handler w entry e _) as [r [[d'' t''] oa'']] eqn:Eh.
      revert Eh. unfold setup_entry_handler. rewrite He. unfold_body.
      unfold getitem. rewrite Hn. intros [= <- <- <- <-].
      cbn [snd frame_hass hass_trace].
      exists calls. split; [done|]. split; [done|]. by intros _ [].
    + rewrite async_setup_entry_run. unfold try_except.
      destruct (setup_entry_body_raises entry _ (hass_trace h) _ _
                  (ensure_domain_lookup_some _) Hr) as (calls & d' & -> & _).
      destruct (setup_entry_handler w entry e _) as [r [[d'' t''] oa'']] eqn:Eh.
      revert Eh. unfold setup_entry_handler. rewrite He. unfold_body.
      unfold getitem. rewrite Hn. intros [= <- <- <- <-].
      cbn [snd frame_hass hass_trace].
      exists calls. split; [done|]. split; [done|]. by intros _ [].
Qed.


(** C5: an unload first logs, then looks up the host's stored API.  When
    it is there, [destroy()] is awaited on it; when that returns, and only
    then, the platforms [PLATFORMS] of the entry are unloaded, and what
    the unload gives (a value or an exception) is what the function gives;
    when [destroy()] raises, the platforms are not unloaded.  When the API
    is not there, the lookup's exception is raised and nothing is called. *)
Theorem unload_destroys_first entry h :
  let d := hass_data h in
  let t := hass_trace h ++ [(d, CallLogDebug "async_unload_entry")] in
  match stored_api entry d with
  | Ok a =>
      match api_destroy w d a with
      | Ok _ =>
          async_unload_entry w entry h =
            (unload_platforms w d entry PLATFORMS,
             {| hass_data := d;
                hass_trace := t ++ [(d, CallDestroy a);
                                    (d, CallUnloadPlatforms entry PLATFORMS)] |})
      | Raise e =>
          async_unload_entry w entry h =
            (Raise e, {| hass_data := d; hass_trace := t ++ [(d, CallDestroy a)] |})
      end
  | Raise e =>
      async_unload_entry w entry h = (Raise e, {| hass_data := d; hass_trace := t |})
  end.
Proof.
  destruct h as [d t]. cbn [hass_data hass_trace].
  unfold stored_api, host_key, async_unload_entry.
  cbv [mbind M_bind result_bind mret M_ret await tell get_data gets eval].
  cbn [hass_data hass_trace].
  destruct (getitem d DOMAIN) as [hosts|]; [|done].
  destruct (getitem (entry_data entry) CONF_NAME) as [name|]; [|done].
  destruct (py_key name) as [k|]; [|done].
  destruct (getitem_key hosts k) as [host|]; [|done].
  destruct (getitem host API) as [x|]; [|done].
  destruct (destroy_method x) as [a|]; [|done].
  rewrite <- !app_assoc.
  by destruct (api_destroy w d a) as [[]|].
Qed.

End setup_entry_run.

(** ** [async_setup] *)

Section setup_run.
Context `{Consts}.

Ltac unfold_setup :=
  cbv [the_entry entry_getitem entry_setitem effect mbind M_bind mret M_ret
       gets modify eval raise];
  cbn [setup_config setup_effects].

Lemma the_entry_first cfg e rest effs :
  the_entry 0 (at_first cfg e rest effs) = (Ok e, at_first cfg e rest effs).
Proof.
  unfold at_first. unfold_setup. unfold getitem. by rewrite lookup_insert_eq.
Qed.

Lemma entry_getitem_first cfg e rest effs key :
  entry_getitem 0 key (at_first cfg e rest effs)
  = (getitem e key, at_first cfg e rest effs).
Proof.
  unfold entry_getitem. cbv [mbind M_bind]. rewrite the_entry_first. done.
Qed.

Lemma entry_setitem_first cfg e rest effs key v :
  entry_setitem 0 key v (at_first cfg e rest effs)
  = (Ok tt, at_first cfg (<[key := v]> e) rest effs).
Proof.
  unfold entry_setitem. cbv [mbind M_bind]. rewrite the_entry_first.
  unfold at_first, modify. cbn [setup_config setup_effects].
  rewrite lookup_insert_eq, insert_insert_eq. done.
Qed.

Lemma effect_first cfg e rest effs x :
  effect x (at_first cfg e rest effs) = (Ok tt, at_first cfg e rest (effs ++ [x])).
Proof. done. Qed.

Lemma remove_first_strings a l :
  a ∈ l -> remove_first a (VStr <$> l) = Some (VStr <$> without_first a l).
Proof.
  induction l as [|x l IH]; intros Hin; [by apply elem_of_nil in Hin|].
  cbn. case_bool_decide as E; [done|].
  apply elem_of_cons in Hin as [->|Hin]; [done|].
  by rewrite IH.
Qed.

Ltac run_setup :=
  repeat first
    [ rewrite entry_getitem_first
    | rewrite entry_setitem_first
    | rewrite the_entry_first
    | rewrite effect_first
    | rewrite insert_insert_eq
    | rewrite lookup_insert_eq
    | progress cbn [py_len py_contains_str py_list_remove andb]
    | progress unfold getitem ].

Lemma setup_loop_body_first cfg e rest effs l :
  e !! CONF_MONITORED_CONDITIONS = Some (VList l) ->
  CONTAINER_INFO_ALLINONE ∈ MONITORED_CONDITIONS_LIST ->
  let e' := <[CONF_MONITORED_CONDITIONS := VList (expanded_conditions l)]> e in
  setup_loop_body 0 (at_first cfg e rest effs)
  = (Ok (Return true),
     at_first cfg e' rest
       (effs ++ [LogStartingFlow (e' !! CONF_NAME) e';
                 CreateImportTask DOMAIN SOURCE_IMPORT e'])).
Proof.
  intros Hl Hin e'. subst e'. unfold setup_loop_body, expanded_conditions.
  cbv [mbind M_bind mret M_ret eval].
  run_setup. rewrite Hl. run_setup.
  destruct l as [|x l].
  - rewrite bool_decide_eq_true_2 by done. run_setup.
    rewrite remove_first_strings by done. run_setup.
    case_bool_decide as El; run_setup.
    + destruct (existsb _ _); run_setup; by rewrite <- app_assoc.
    + by rewrite <- app_assoc.
  - rewrite bool_decide_eq_false_2 by done. run_setup. rewrite !Hl. run_setup.
    case_bool_decide as El; run_setup.
    + rewrite Hl. run_setup.
      destruct (existsb _ _); run_setup;
        rewrite ?(insert_id e) by done; run_setup; by rewrite <- app_assoc.
    + rewrite (insert_id e) by done. run_setup. by rewrite <- app_assoc.
Qed.

Lemma async_setup_first cfg e rest effs l :
  cfg !! DOMAIN = Some (e :: rest) ->
  e !! CONF_MONITORED_CONDITIONS = Some (VList l) ->
  CONTAINER_INFO_ALLINONE ∈ MONITORED_CONDITIONS_LIST ->
  let e' := <[CONF_MONITORED_CONDITIONS := VList (expanded_conditions l)]> e in
  async_setup {| setup_config := cfg; setup_effects := effs |}
  = (Ok true,
     {| setup_config := <[DOMAIN := e' :: rest]> cfg;
        setup_effects :=
          effs ++ [LogStartingFlow (e' !! CONF_NAME) e';
                   CreateImportTask DOMAIN SOURCE_IMPORT e'] |}).
Proof.
  intros Hc Hl Hin e'. unfold async_setup.
  cbv [mbind M_bind mret M_ret gets]. cbn [setup_config]. rewrite Hc.
  cbn [length seq for_each]. cbv [mbind M_bind mret M_ret].
  replace {| setup_config := cfg; setup_effects := effs |}
    with (at_first cfg e rest effs)
    by (unfold at_first; by rewrite insert_id).
  by rewrite (setup_loop_body_first _ _ _ _ l).
Qed.


Lemma occurrences_cons a x l :
  occurrences a (x :: l) = (if bool_decide (x = a) then S (occurrences a l) else occurrences a l).
Proof.
  unfold occurrences. rewrite filter_cons.
  case_bool_decide; by case_decide.
Qed.

Lemma occurrences_zero a l : occurrences a l = 0%nat <-> a ∉ l.
Proof.
  induction l as [|x l IH].
  - split; [intros _; apply not_elem_of_nil|done].
  - rewrite occurrences_cons, not_elem_of_cons.
    case_bool_decide as E; [|rewrite IH]; split; try done; intros []; congruence.
Qed.

Lemma occurrences_elem_of a l : occurrences a l = 1%nat -> a ∈ l.
Proof.
  intros Hocc. destruct (decide (a ∈ l)) as [|Hn]; [done|].
  apply occurrences_zero in Hn. lia.
Qed.

Lemma occurrences_without_first a l :
  a ∈ l -> S (occurrences a (without_first a l)) = occurrences a l.
Proof.
  induction l as [|x l IH]; intros Hin; [by apply elem_of_nil in Hin|].
  cbn [without_first]. rewrite occurrences_cons.
  case_bool_decide as E; [done|].
  rewrite occurrences_cons, bool_decide_eq_false_2 by done.
  apply IH. by apply elem_of_cons in Hin as [->|].
Qed.

Lemma without_first_perm a l : a ∈ l -> l ≡ₚ a :: without_first a l.
Proof.
  induction l as [|x l IH]; intros Hin; [by apply elem_of_nil in Hin|].
  cbn [without_first]. case_bool_decide as E; [by subst|].
  apply elem_of_cons in Hin as [->|Hin]; [done|].
  rewrite IH at 1 by done. apply Permutation_swap.
Qed.

Lemma occurrences_app a l1 l2 :
  occurrences a (l1 ++ l2) = (occurrences a l1 + occurrences a l2)%nat.
Proof. unfold occurrences. by rewrite filter_app, length_app. Qed.

Lemma existsb_strings a l :
  existsb (py_eq_str a) (VStr <$> l) = bool_decide (a ∈ l).
Proof.
  induction l as [|x l IH]; [done|].
  cbn [fmap list_fmap existsb py_eq_str]. fold (fmap (M:=list) VStr l). rewrite IH.
  destruct (bool_decide_reflect (x = a)), (bool_decide_reflect (a ∈ l)); cbn;
    symmetry; (apply bool_decide_eq_true_2 || apply bool_decide_eq_false_2);
    rewrite elem_of_cons; intuition congruence.
Qed.

Lemma expanded_conditions_empty :
  occurrences CONTAINER_INFO_ALLINONE MONITORED_CONDITIONS_LIST = 1%nat ->
  expanded_conditions []
  = VStr <$> without_first CONTAINER_INFO_ALLINONE MONITORED_CONDITIONS_LIST.
Proof.
  intros Hocc. unfold expanded_conditions.
  rewrite existsb_strings, (bool_decide_eq_false_2 (_ ∈ _)), andb_false_r; [done|].
  apply occurrences_zero.
  pose proof (occurrences_without_first _ _ (occurrences_elem_of _ _ Hocc)). lia.
Qed.

Lemma expanded_conditions_allinone :
  expanded_conditions [VStr CONTAINER_INFO_ALLINONE]
  = VStr <$> (MONITORED_CONDITIONS_LIST ++ [CONTAINER_INFO_ALLINONE]).
Proof.
  unfold expanded_conditions. cbn. by rewrite !bool_decide_eq_true_2.
Qed.

(** C4: for a YAML configuration whose list of host entries under the
    domain is [e :: rest] (one entry or more; the schema has made the
    monitored conditions of [e] a list, and the all-in-one condition is one
    of [MONITORED_CONDITIONS_LIST]), [async_setup] returns [True] after
    logging and creating exactly one config-flow import task, for the first
    entry [e] with its monitored conditions fixed up and nothing else
    changed; the entries of [rest] are left as they were and no task is
    created for any of them. *)
Theorem setup_imports_first_entry_only cfg effs e rest l :
  cfg !! DOMAIN = Some (e :: rest) ->
  e !! CONF_MONITORED_CONDITIONS = Some (VList l) ->
  CONTAINER_INFO_ALLINONE ∈ MONITORED_CONDITIONS_LIST ->
  exists e',
    async_setup {| setup_config := cfg; setup_effects := effs |}
    = (Ok true,
       {| setup_config := <[DOMAIN := e' :: rest]> cfg;
          setup_effects :=
            effs ++ [LogStartingFlow (e' !! CONF_NAME) e';
                     CreateImportTask DOMAIN SOURCE_IMPORT e'] |})
    /\ (forall key, key <> CONF_MONITORED_CONDITIONS -> e' !! key = e !! key).
Proof.
  intros Hc Hl Hin.
  exists (<[CONF_MONITORED_CONDITIONS := VList (expanded_conditions l)]> e). split.
  - by apply (async_setup_first _ _ _ _ l).
  - intros key Hk. by rewrite lookup_insert_ne.
Qed.

(** C8: in [async_setup], when [MONITORED_CONDITIONS_LIST] holds the
    all-in-one condition once, a first entry whose monitored conditions are
    the empty list is imported with [MONITORED_CONDITIONS_LIST] without the
    all-in-one condition, and a first entry whose monitored conditions are
    the all-in-one condition alone is imported with
    [MONITORED_CONDITIONS_LIST] followed by one more all-in-one condition,
    which then occurs twice in the list. *)
Theorem setup_expands_conditions cfg effs e rest :
  cfg !! DOMAIN = Some (e :: rest) ->
  occurrences CONTAINER_INFO_ALLINONE MONITORED_CONDITIONS_LIST = 1%nat ->
  (e !! CONF_MONITORED_CONDITIONS = Some (VList []) ->
   let l' := without_first CONTAINER_INFO_ALLINONE MONITORED_CONDITIONS_LIST in
   let e' := with_conditions e l' in
   async_setup {| setup_config := cfg; setup_effects := effs |}
   = (Ok true,
      {| setup_config := <[DOMAIN := e' :: rest]> cfg;
         setup_effects :=
           effs ++ [LogStartingFlow (e' !! CONF_NAME) e';
                    CreateImportTask DOMAIN SOURCE_IMPORT e'] |})
   /\ MONITORED_CONDITIONS_LIST ≡ₚ CONTAINER_INFO_ALLINONE :: l'
   /\ CONTAINER_INFO_ALLINONE ∉ l')
  /\ (e !! CONF_MONITORED_CONDITIONS = Some (VList [VStr CONTAINER_INFO_ALLINONE]) ->
     let l' := MONITORED_CONDITIONS_LIST ++ [CONTAINER_INFO_ALLINONE] in
     let e' := with_conditions e l' in
     async_setup {| setup_config := cfg; setup_effects := effs |}
     = (Ok true,
        {| setup_config := <[DOMAIN := e' :: rest]> cfg;
           setup_effects :=
             effs ++ [LogStartingFlow (e' !! CONF_NAME) e';
                      CreateImportTask DOMAIN SOURCE_IMPORT e'] |})
     /\ occurrences CONTAINER_INFO_ALLINONE l' = 2%nat).
Proof.
  intros Hc Hocc.
  pose proof (occurrences_elem_of _ _ Hocc) as Hin.
  split; intros Hl l' e'; subst l' e'; unfold with_conditions.
  - rewrite <- expanded_conditions_empty by done.
    split; [by apply (async_setup_first _ _ _ _ [])|].
    split; [by apply without_first_perm|].
    apply occurrences_zero.
    pose proof (occurrences_without_first _ _ Hin). lia.
  - rewrite <- expanded_conditions_allinone.
    split; [by apply (async_setup_first _ _ _ _ [VStr CONTAINER_INFO_ALLINONE])|].
    rewrite occurrences_app, Hocc, occurrences_cons, bool_decide_eq_true_2 by done.
    done.
Qed.

End setup_run.

(** ** [DOCKER_SCHEMA] *)

Section schema_generic.

Lemma find_marker_Some schema k m :
  find_marker schema k = Some m -> m ∈ schema /\ opt_key m = k.
Proof.
  unfold find_marker. intros Hf. apply find_some in Hf as [Hin Hk].
  split; [by apply list_elem_of_In|]. by apply bool_decide_eq_true in Hk.
Qed.

Lemma find_marker_None schema k :
  find_marker schema k = None <-> k ∉ opt_key <$> schema.
Proof.
  unfold find_marker. induction schema as [|m schema IH]; cbn.
  - split; [intros _; apply not_elem_of_nil|done].
  - rewrite not_elem_of_cons. case_bool_decide as E; [intuition congruence|].
    rewrite IH. intuition congruence.
Qed.

Lemma find_marker_elem_of schema m :
  NoDup (opt_key <$> schema) -> m ∈ schema ->
  find_marker schema (opt_key m) = Some m.
Proof.
  unfold find_marker. induction schema as [|m' schema IH]; intros Hnd Hin.
  - by apply elem_of_nil in Hin.
  - cbn in *. apply NoDup_cons in Hnd as [Hn Hnd].
    apply elem_of_cons in Hin as [->|Hin]; [by rewrite bool_decide_eq_true_2|].
    case_bool_decide as E; [|by apply IH].
    destruct Hn. rewrite E. by apply list_elem_of_fmap_2.
Qed.

Lemma with_defaults_lookup schema data k :
  NoDup (opt_key <$> schema) ->
  with_defaults schema data !! k =
    match data !! k with
    | Some v => Some v
    | None => opt_default <$> find_marker schema k
    end.
Proof.
  unfold find_marker. induction schema as [|m schema IH]; intros Hnd; cbn.
  - by destruct (data !! k).
  - apply NoDup_cons in Hnd as [Hn Hnd]. specialize (IH Hnd).
    fold (with_defaults schema data).
    case_bool_decide as E.
    + subst k. apply find_marker_None in Hn. unfold find_marker in Hn.
      rewrite Hn in IH.
      destruct (with_defaults schema data !! opt_key m) eqn:Ew.
      * rewrite Ew, IH. by destruct (data !! opt_key m).
      * rewrite lookup_insert_eq. by destruct (data !! opt_key m).
    + destruct (with_defaults schema data !! opt_key m); [done|].
      by rewrite lookup_insert_ne.
Qed.

Lemma omap_nil_Forall {A B} (f : A -> option B) l :
  omap f l = [] -> Forall (fun x => f x = None) l.
Proof.
  induction l as [|x l IH]; cbn; [constructor|].
  destruct (f x) eqn:E; [done|]. intros Hl. constructor; auto.
Qed.

Lemma vol_Schema_Ok schema data out :
  vol_Schema schema data = Ok out ->
  forall k,
    match with_defaults schema data !! k with
    | Some v => exists v', validate_item schema k v = Ok v' /\ out !! k = Some v'
    | None => out !! k = None
    end.
Proof.
  unfold vol_Schema. destruct (omap _ _) eqn:Eo; [|done].
  intros [= <-] k. rewrite map_lookup_imap.
  apply omap_nil_Forall in Eo. rewrite Forall_forall in Eo.
  destruct (with_defaults schema data !! k) as [v|] eqn:Ew; [|done].
  specialize (Eo (k, v)). cbn in Eo. cbn.
  destruct (validate_item schema k v) as [v'|e] eqn:Ev.
  - by exists v'.
  - assert ((k, v) ∈ map_to_list (with_defaults schema data)) as Hin
      by by apply elem_of_map_to_list.
    by specialize (Eo Hin).
Qed.

End schema_generic.

Section schema_run.
Context `{Consts} `{Builtins}.

Lemma cv_positive_int_Ok v v' :
  cv_positive_int v = Ok v' -> exists n, v' = VInt n /\ (0 <= n)%Z.
Proof.
  unfold cv_positive_int. cbn [vol_All]. unfold mbind, result_bind.
  destruct (vol_Coerce_int v) as [c|] eqn:Ec; [|done].
  assert (exists n, c = VInt n) as [n ->].
  { destruct v; cbn in Ec; try done; [naive_solver..|].
    destruct (int_of_str s); naive_solver. }
  cbn. destruct (Z.ltb_spec n 0); [done|].
  intros [= <-]. eauto.
Qed.

Lemma cv_positive_int_default d v' :
  cv_positive_int (VInt d) = Ok v' -> v' = VInt d.
Proof.
  unfold cv_positive_int. cbn. destruct (d <? 0)%Z; [done|]. by intros [= <-].
Qed.

Lemma DOCKER_SCHEMA_default_fixed m v' :
  m ∈ DOCKER_SCHEMA_markers ->
  opt_check m (opt_default m) = Ok v' -> v' = opt_default m.
Proof.
  unfold DOCKER_SCHEMA_markers. intros Hm.
  repeat (apply elem_of_cons in Hm as [->|Hm]);
    try (by apply elem_of_nil in Hm);
    cbn [opt_check opt_default];
    first [ apply cv_positive_int_default | cbn; congruence ].
Qed.

Lemma integer_options_checked k :
  k ∈ integer_options ->
  exists m, m ∈ DOCKER_SCHEMA_markers /\ opt_key m = k /\ opt_check m = cv_positive_int.
Proof.
  unfold integer_options. intros Hk.
  repeat (apply elem_of_cons in Hk as [->|Hk]); try (by apply elem_of_nil in Hk).
  all: let rec search n :=
         lazymatch n with
         | 23%nat => fail
         | _ =>
             first [ solve [ eexists; split;
                             [ apply (list_elem_of_lookup_2 _ n); reflexivity
                             | split; reflexivity ] ]
                   | search (S n) ]
         end in
       search 0%nat.
Qed.


(** C6, with non-negative in place of positive: when the markers of the
    schema have different keys and [DOCKER_SCHEMA] accepts a YAML host entry
    [data], giving [out], then
    - [data] holds recognized options only, and [out] holds exactly the
      recognized options;
    - every option given in [data] has passed its validator, and [out] holds
      what the validator made of it;
    - every option omitted from [data] has its default in [out]: among them
      [DEFAULT_SCAN_INTERVAL] for the scan interval, [DEFAULT_RETRY] for the
      retry count, [True] for the switches, [False] for the buttons, and the
      empty string for the prefix and for the certificate path;
    - scan interval, retry count, memory change and the five precisions are
      integers in [out], and none of them is negative.  Zero is accepted:
      [cv.positive_int] checks [Range(min=0)]. *)
Theorem docker_schema_validates data out :
  NoDup recognized_options ->
  DOCKER_SCHEMA data = Ok out ->
  (forall k, is_Some (data !! k) -> k ∈ recognized_options)
  /\ (forall k, is_Some (out !! k) <-> k ∈ recognized_options)
  /\ (forall m v, m ∈ DOCKER_SCHEMA_markers -> data !! opt_key m = Some v ->
        exists v', opt_check m v = Ok v' /\ out !! opt_key m = Some v')
  /\ (forall m, m ∈ DOCKER_SCHEMA_markers -> data !! opt_key m = None ->
        out !! opt_key m = Some (opt_default m))
  /\ ((data !! CONF_SCAN_INTERVAL = None ->
       out !! CONF_SCAN_INTERVAL = Some (VInt DEFAULT_SCAN_INTERVAL))
      /\ (data !! CONF_RETRY = None -> out !! CONF_RETRY = Some (VInt DEFAULT_RETRY))
      /\ (data !! CONF_SWITCHENABLED = None ->
          out !! CONF_SWITCHENABLED = Some (VBool true))
      /\ (data !! CONF_BUTTONENABLED = None ->
          out !! CONF_BUTTONENABLED = Some (VBool false))
      /\ (data !! CONF_PREFIX = None -> out !! CONF_PREFIX = Some (VStr EmptyString))
      /\ (data !! CONF_CERTPATH = None -> out !! CONF_CERTPATH = Some (VStr EmptyString)))
  /\ (forall k, k ∈ integer_options ->
        exists n, out !! k = Some (VInt n) /\ (0 <= n)%Z).
Proof.
  unfold recognized_options, DOCKER_SCHEMA. intros Hnd Hok.
  pose proof (vol_Schema_Ok _ _ _ Hok) as Hout.
  assert (forall m v, m ∈ DOCKER_SCHEMA_markers -> data !! opt_key m = Some v ->
            exists v', opt_check m v = Ok v' /\ out !! opt_key m = Some v') as Hgiven.
  { intros m v Hm Hv. specialize (Hout (opt_key m)).
    rewrite with_defaults_lookup, Hv in Hout by done.
    unfold validate_item in Hout. by rewrite find_marker_elem_of in Hout. }
  assert (forall m, m ∈ DOCKER_SCHEMA_markers -> data !! opt_key m = None ->
            out !! opt_key m = Some (opt_default m)) as Hdefault.
  { intros m Hm Hv. specialize (Hout (opt_key m)).
    rewrite with_defaults_lookup, Hv, find_marker_elem_of in Hout by done.
    cbn in Hout. destruct Hout as (v' & Hv' & ->).
    unfold validate_item in Hv'. rewrite find_marker_elem_of in Hv' by done.
    by rewrite (DOCKER_SCHEMA_default_fixed m v'). }
  assert (forall k, is_Some (data !! k) -> k ∈ opt_key <$> DOCKER_SCHEMA_markers)
    as Hknown.
  { intros k [v Hv]. specialize (Hout k).
    rewrite with_defaults_lookup, Hv in Hout by done.
    destruct Hout as (v' & Hv' & _). unfold validate_item in Hv'.
    destruct (find_marker DOCKER_SCHEMA_markers k) as [m|] eqn:Ef; [|done].
    apply find_marker_Some in Ef as [Hm <-]. by apply list_elem_of_fmap_2. }
  split; [done|]. split; [|split; [done|split; [done|split]]].
  - intros k. split.
    + intros [v' Hv']. specialize (Hout k).
      rewrite with_defaults_lookup in Hout by done.
      destruct (data !! k) as [v|] eqn:Ed; [apply Hknown; by rewrite Ed|].
      destruct (find_marker DOCKER_SCHEMA_markers k) as [m|] eqn:Ef.
      * apply find_marker_Some in Ef as [Hm <-]. by apply list_elem_of_fmap_2.
      * cbn in Hout. congruence.
    + intros (m & -> & Hm)%list_elem_of_fmap.
      destruct (data !! opt_key m) as [v|] eqn:Ed.
      * destruct (Hgiven m v Hm Ed) as (v' & _ & ->). eauto.
      * rewrite (Hdefault m Hm Ed). eauto.
  - pose proof (fun n m (Hm : DOCKER_SCHEMA_markers !! n = Some m) =>
                  Hdefault m (list_elem_of_lookup_2 _ n m Hm)) as Hnth.
    repeat split.
    + exact (Hnth 3%nat _ eq_refl).
    + exact (Hnth 15%nat _ eq_refl).
    + exact (Hnth 10%nat _ eq_refl).
    + exact (Hnth 11%nat _ eq_refl).
    + exact (Hnth 1%nat _ eq_refl).
    + exact (Hnth 14%nat _ eq_refl).
  - intros k (m & Hm & <- & Hc)%integer_options_checked.
    destruct (data !! opt_key m) as [v|] eqn:Ed.
    + destruct (Hgiven m v Hm Ed) as (v' & Hv' & ->).
      rewrite Hc in Hv'. apply cv_positive_int_Ok in Hv' as (n & -> & Hn). eauto.
    + specialize (Hout (opt_key m)).
      rewrite with_defaults_lookup, Ed, find_marker_elem_of in Hout by done.
      cbn in Hout. destruct Hout as (v' & Hv' & ->).
      unfold validate_item in Hv'. rewrite find_marker_elem_of, Hc in Hv' by done.
      apply cv_positive_int_Ok in Hv' as (n & -> & Hn). eauto.
Qed.

End schema_run.

(** The sample constants name the options differently. *)
Lemma example_NoDup : NoDup (@recognized_options example_consts example_builtins).
Proof. apply (bool_decide_unpack _). vm_compute. exact I. Qed.

(** C6 as stated does not hold: the schema accepts a host entry whose scan
    interval is zero, and zero is what the validated entry then holds, so
    the validated scan interval is not always a positive integer. *)
Lemma scan_interval_zero_accepted :
  ~ (forall data out n,
       @DOCKER_SCHEMA example_consts example_builtins data = Ok out ->
       out !! @CONF_SCAN_INTERVAL example_consts = Some (VInt n) ->
       (0 < n)%Z).
Proof.
  intros Hpos.
  assert (match @DOCKER_SCHEMA example_consts example_builtins zero_interval_entry with
          | Ok out => out !! @CONF_SCAN_INTERVAL example_consts
          | Raise _ => None
          end = Some (VInt 0)) as Hrun by (vm_compute; reflexivity).
  destruct (@DOCKER_SCHEMA example_consts _ zero_interval_entry) as [out|] eqn:E;
    [|discriminate].
  specialize (Hpos _ _ _ E Hrun). lia.
Qed.

(** ** CPU percentage *)

Lemma cpu_percentage_nonnegative p s :
  (cpu_total p <= cpu_total s)%N ->
  nonnegative (cpu_percentage (Some p) s).
Proof.
  intros Hc. unfold cpu_percentage, nonnegative.
  destruct (Z.leb_spec (system_delta p s) 0) as [|Hs]; [done|].
  assert (0 <= cpu_delta p s)%Z as Hd by (unfold cpu_delta; lia).
  apply Qmult_le_0_compat; [|done].
  apply Qmult_le_0_compat.
  - apply Qle_shift_div_l.
    + change 0%Q with (inject_Z 0). by rewrite <- Zlt_Qlt.
    + rewrite Qmult_0_l. change 0%Q with (inject_Z 0). by rewrite <- Zle_Qle.
  - change 0%Q with (inject_Z 0). rewrite <- Zle_Qle. lia.
Qed.

Lemma sampler_readings_nonnegative prev ticks :
  cumulative prev ticks ->
  Forall nonnegative (sampler_readings prev ticks).
Proof.
  revert prev. induction ticks as [|[s|] ticks IH]; intros prev Hc; cbn in *.
  - constructor.
  - destruct Hc as [Hp Hc]. constructor; [|by apply IH].
    destruct prev as [p|]; [by apply cpu_percentage_nonnegative|done].
  - by apply IH.
Qed.






(** The scenario of the specification: the first fetch has no percentage,
    the second one reads 50. *)
Example scenario_reads_50 :
  exists q, sampler_readings None scenario_ticks = [Unavailable; Percent q]
            /\ (q == 50)%Q.
Proof. eexists. split; [reflexivity|]. vm_compute. reflexivity. Qed.

(** ** The properties at the sample values *)

(** A refused [init()] reaches the caller as it was raised; an unreachable
    daemon is reported as [ConfigEntryNotReady]. *)
Lemma setup_failure_reported_witness :
  (async_setup_entry world_auth_failed example_entry empty_hass).1
    = Raise (ConfigEntryAuthFailed "certificate rejected")
  /\ (async_setup_entry world_unreachable example_entry empty_hass).1
    = Raise (not_ready world_unreachable
               (OtherException "ClientConnectorError" "cannot connect")).
Proof.
  split.
  - refine (proj1 (setup_failure_reported world_auth_failed example_entry
                     empty_hass (Some example_api)
                     (ConfigEntryAuthFailed "certificate rejected") _) eq_refl).
    apply raises_in_init; reflexivity.
  - refine (proj1 (proj2 (setup_failure_reported world_unreachable
                     example_entry empty_hass (Some example_api)
                     (OtherException "ClientConnectorError" "cannot connect") _))
                     eq_refl).
    apply raises_in_run; reflexivity.
Defined.

(** C1 as stated does not hold: with a daemon that cannot be reached and a
    [destroy()] that raises in its turn, the setup fails with an exception
    other than [ConfigEntryAuthFailed], and what reaches the caller is the
    exception of [destroy()], not a [ConfigEntryNotReady]. *)
Lemma failed_destroy_hides_not_ready :
  ~ (forall (w : World) entry h oa e,
       setup_raises w entry (ensure_domain (hass_data h)) oa e ->
       is_ConfigEntryAuthFailed e = false ->
       exists e', (async_setup_entry w entry h).1 = Raise e'
                  /\ is_ConfigEntryNotReady e' = true).
Proof.
  intros Hclaim.
  destruct (Hclaim world_destroy_fails example_entry empty_hass (Some example_api)
              (OtherException "ClientConnectorError" "cannot connect"))
    as (e' & Hrun & Hready).
  - apply raises_in_run; reflexivity.
  - reflexivity.
  - assert ((async_setup_entry world_destroy_fails example_entry empty_hass).1
            = Raise (OtherException "OSError" "connection lost")) as Hos
      by (vm_compute; reflexivity).
    rewrite Hos in Hrun. injection Hrun as <-. discriminate Hready.
Qed.

(** With an unreachable daemon the run ends with the error log and
    [destroy()] on the API that was created. *)
Lemma destroy_before_not_ready_witness :
  exists pre d name,
    hass_trace (async_setup_entry world_unreachable example_entry empty_hass).2 =
      pre ++ [(d, CallLogError name "error"); (d, CallDestroy example_api)]
    /\ Forall not_destroy pre.
Proof.
  destruct (destroy_before_not_ready world_unreachable example_entry empty_hass
              example_api (OtherException "ClientConnectorError" "cannot connect"))
    as (pre & d & name & Ht & Hpre & _).
  - apply raises_in_run; reflexivity.
  - reflexivity.
  - exists (VStr "nas"). reflexivity.
  - exists pre, d, name. split; [exact Ht | exact Hpre].
Defined.

(** The setup of the sample entry succeeds when every collaborator does. *)
Lemma example_setup_entry_ok :
  async_setup_entry world_ok example_entry empty_hass
  = (Ok true, (async_setup_entry world_ok example_entry empty_hass).2).
Proof. vm_compute. reflexivity. Qed.

(** The successful setup of the sample entry awaits [init()], [run()] and
    the platform setup in this order. *)
Lemma setup_success_order_witness :
  exists a k d d',
    hass_trace (async_setup_entry world_ok example_entry empty_hass).2 =
      [(d, CallDockerAPI (entry_data example_entry)); (d, CallInit a);
       (d, CallRun a); (d', CallForwardEntrySetups example_entry PLATFORMS)]
    /\ lookup_slot d' k API = Some (SlotApi a).
Proof.
  destruct (setup_success_order world_ok example_entry empty_hass true _
              example_setup_entry_ok)
    as (a & k & _ & _ & _ & _ & _ & Ht & Hs).
  exists a, k. eexists. eexists. split; [exact Ht | exact Hs].
Defined.

(** With a refused [init()] no [destroy()] is awaited. *)
Lemma auth_failure_skips_destroy_witness :
  exists calls,
    hass_trace (async_setup_entry world_auth_failed example_entry empty_hass).2
      = calls
    /\ Forall not_destroy calls.
Proof.
  destruct (auth_failure_skips_destroy world_auth_failed example_entry empty_hass
              (Some example_api) (ConfigEntryAuthFailed "certificate rejected"))
    as (calls & Ht & Hauth & _).
  - apply raises_in_init; reflexivity.
  - exists calls. split; [exact Ht | exact (proj2 (Hauth eq_refl))].
Defined.


(** Of two YAML entries the first alone is imported. *)
Lemma setup_imports_first_entry_only_witness :
  exists e',
    async_setup (example_setup [yaml_first; yaml_second])
    = (Ok true,
       {| setup_config :=
            <[DOMAIN := [e'; yaml_second]]> {[ DOMAIN := [yaml_first; yaml_second] ]};
          setup_effects :=
            [LogStartingFlow (e' !! CONF_NAME) e';
             CreateImportTask DOMAIN SOURCE_IMPORT e'] |}).
Proof.
  destruct (setup_imports_first_entry_only
              {[ DOMAIN := [yaml_first; yaml_second] ]} [] yaml_first [yaml_second] [])
    as (e' & Hrun & _).
  - reflexivity.
  - reflexivity.
  - apply (list_elem_of_lookup_2 _ 3%nat). reflexivity.
  - exists e'. exact Hrun.
Defined.

(** An entry without monitored conditions gets the list without the
    all-in-one condition; an entry with the all-in-one condition alone gets
    a list that holds it twice. *)
Lemma setup_expands_conditions_witness :
  ("allinone" ∉ without_first "allinone" MONITORED_CONDITIONS_LIST)
  /\ occurrences "allinone" (MONITORED_CONDITIONS_LIST ++ ["allinone"]) = 2%nat.
Proof.
  split.
  - refine (proj2 (proj2 (proj1 (setup_expands_conditions
              {[ DOMAIN := [yaml_first; yaml_second] ]} [] yaml_first [yaml_second]
              _ _) _))); reflexivity.
  - refine (proj2 (proj2 (setup_expands_conditions
              {[ DOMAIN := [yaml_second] ]} [] yaml_second [] _ _) _)); reflexivity.
Defined.

(** The schema accepts the entry with scan interval zero, keeps the zero
    and fills in the retry count. *)
Lemma docker_schema_validates_witness :
  exists out,
    DOCKER_SCHEMA zero_interval_entry = Ok out
    /\ out !! CONF_RETRY = Some (VInt DEFAULT_RETRY)
    /\ exists n, out !! CONF_SCAN_INTERVAL = Some (VInt n) /\ (0 <= n)%Z.
Proof.
  assert (is_Ok (DOCKER_SCHEMA zero_interval_entry) = true) as Hok
    by (vm_compute; reflexivity).
  destruct (DOCKER_SCHEMA zero_interval_entry) as [out|] eqn:E; [|discriminate].
  destruct (docker_schema_validates zero_interval_entry out example_NoDup E)
    as (_ & _ & _ & _ & (_ & Hretry & _) & Hint).
  exists out. split; [reflexivity|]. split.
  - apply Hretry. reflexivity.
  - apply Hint. apply (list_elem_of_lookup_2 _ 0%nat). reflexivity.
Defined.



(** ** More on [async_setup_entry] and [async_unload_entry] *)

Section setup_entry_more.
Context `{Consts} (w : World).

Ltac unfold_frame :=
  cbv [setup_entry_body setup_entry_handler mbind M_bind mret M_ret on_hass
       await tell get_data set_data gets modify eval raise set_api get_api];
  cbn [frame_hass frame_api hass_data hass_trace].

Ltac frame_step :=
  cbn [frame_hass frame_api hass_data hass_trace].

(** [hass.data] when the body of the [try] is left, by return or by
    exception: the host's record is there as soon as the stores were
    reached with a hashable name. *)
Lemma setup_entry_body_data entry d t :
  is_Some (d !! DOMAIN) ->
  hass_data (frame_hass (setup_entry_body w entry
    {| frame_hass := {| hass_data := d; hass_trace := t |};
       frame_api := None |}).2)
  = match new_DockerAPI w d (entry_data entry) with
    | Ok a =>
        match api_init w d a, api_run w d a, host_key entry with
        | Ok _, Ok _, Ok k => with_host d k (host_record entry a)
        | _, _, _ => d
        end
    | Raise _ => d
    end.
Proof.
  intros Hd. unfold_frame.
  destruct (new_DockerAPI w d (entry_data entry)) as [a|]; [|done]. frame_step.
  destruct (api_init w d a) as [[]|]; [|done]. frame_step.
  destruct (api_run w d a) as [[]|]; [|done]. frame_step.
  rewrite store_entry_run by done.
  destruct (host_key entry) as [k|]; [|done].
  cbn [frame_hass frame_api hass_data hass_trace].
  by destruct (forward_entry_setups w _ entry PLATFORMS) as [[]|].
Qed.

(** No [except] clause writes [hass.data]. *)
Lemma setup_entry_handler_data entry e f :
  hass_data (frame_hass (setup_entry_handler w entry e f).2)
  = hass_data (frame_hass f).
Proof.
  unfold setup_entry_handler. destruct (is_ConfigEntryAuthFailed e); [done|].
  unfold_frame. destruct (getitem _ _) as [name|]; [|done].
  destruct (frame_api f) as [a|]; frame_step; [|done].
  by destruct (api_destroy w _ a) as [[]|].
Qed.

Lemma async_setup_entry_data entry h :
  let d := ensure_domain (hass_data h) in
  hass_data (async_setup_entry w entry h).2
  = match new_DockerAPI w d (entry_data entry) with
    | Ok a =>
        match api_init w d a, api_run w d a, host_key entry with
        | Ok _, Ok _, Ok k => with_host d k (host_record entry a)
        | _, _, _ => d
        end
    | Raise _ => d
    end.
Proof.
  intros d. subst d. rewrite async_setup_entry_run. unfold try_except.
  pose proof (setup_entry_body_data entry (ensure_domain (hass_data h))
                (hass_trace h) (ensure_domain_lookup_some _)) as Hb.
  destruct (setup_entry_body w entry _) as [[[]|e] f]; cbn [snd] in *.
  - done.
  - pose proof (setup_entry_handler_data entry e f) as Hh.
    destruct (setup_entry_handler w entry e f) as [r f']. cbn [snd] in *.
    congruence.
Qed.

Lemma with_host_lookup_slot d k r key :
  lookup_slot (with_host d k r) k key = r !! key.
Proof.
  unfold lookup_slot, with_host. rewrite lookup_insert_eq. cbn.
  by rewrite lookup_insert_eq.
Qed.

Lemma with_host_other_domain d k r dom :
  dom <> DOMAIN -> with_host d k r !! dom = d !! dom.
Proof. intros Hne. unfold with_host. by rewrite lookup_insert_ne. Qed.

Lemma with_host_other_host d k r k' :
  k' <> k ->
  default ∅ (with_host d k r !! DOMAIN) !! k' = default ∅ (d !! DOMAIN) !! k'.
Proof.
  intros Hne. unfold with_host. rewrite lookup_insert_eq. cbn.
  by rewrite lookup_insert_ne.
Qed.

Lemma host_record_API entry a : host_record entry a !! API = Some (SlotApi a).
Proof. unfold host_record. by rewrite lookup_insert_eq. Qed.

(** The run of [async_unload_entry] once the stored API is known. *)
Lemma async_unload_entry_found entry h a :
  stored_api entry (hass_data h) = Ok a ->
  let d := hass_data h in
  let t := hass_trace h ++ [(d, CallLogDebug "async_unload_entry")] in
  async_unload_entry w entry h =
    match api_destroy w d a with
    | Ok _ =>
        (unload_platforms w d entry PLATFORMS,
         {| hass_data := d;
            hass_trace := t ++ [(d, CallDestroy a);
                                (d, CallUnloadPlatforms entry PLATFORMS)] |})
    | Raise e =>
        (Raise e, {| hass_data := d; hass_trace := t ++ [(d, CallDestroy a)] |})
    end.
Proof.
  destruct h as [d t]. cbn [hass_data hass_trace].
  unfold stored_api, host_key, async_unload_entry.
  cbv [mbind M_bind result_bind mret M_ret await tell get_data gets eval].
  cbn [hass_data hass_trace].
  destruct (getitem d DOMAIN) as [hosts|]; [|done].
  destruct (getitem (entry_data entry) CONF_NAME) as [name|]; [|done].
  destruct (py_key name) as [k|]; [|done].
  destruct (getitem_key hosts k) as [host|]; [|done].
  destruct (getitem host API) as [x|]; [|done].
  destruct (destroy_method x) as [a'|]; [|done].
  intros [= ->]. rewrite <- !app_assoc.
  by destruct (api_destroy w d a) as [[]|].
Qed.

Lemma stored_api_with_host entry d k a :
  host_key entry = Ok k ->
  stored_api entry (with_host d k (host_record entry a)) = Ok a.
Proof.
  intros Hk. unfold stored_api. rewrite Hk.
  unfold with_host, getitem, getitem_key. rewrite lookup_insert_eq. cbn.
  rewrite lookup_insert_eq. cbn. by rewrite host_record_API.
Qed.

(** X1: when the entry's data has no [CONF_NAME], the setup never returns
    and never awaits [destroy()]: what reaches the caller is the
    [KeyError] of the missing name, or the [ConfigEntryAuthFailed] the
    constructor, [init()] or [run()] raised.  In particular, when these
    three succeed the API is left running: the calls are the constructor,
    [init()] and [run()], the store raises the [KeyError], the handler
    raises it again before it logs, and no [ConfigEntryNotReady] is
    made. *)
Theorem setup_without_name entry h :
  entry_data entry !! CONF_NAME = None ->
  let d := ensure_domain (hass_data h) in
  exists calls e,
    hass_trace (async_setup_entry w entry h).2 = hass_trace h ++ calls
    /\ Forall not_destroy calls
    /\ (async_setup_entry w entry h).1 = Raise e
    /\ (e = KeyError (KStr CONF_NAME) \/ is_ConfigEntryAuthFailed e = true)
    /\ (forall a,
          new_DockerAPI w d (entry_data entry) = Ok a ->
          api_init w d a = Ok tt ->
          api_run w d a = Ok tt ->
          e = KeyError (KStr CONF_NAME)
          /\ calls = [(d, CallDockerAPI (entry_data entry)); (d, CallInit a);
                      (d, CallRun a)]).
Proof.
  intros Hn d. subst d.
  assert (host_key entry = Raise (KeyError (KStr CONF_NAME))) as Hk
    by (unfold host_key, getitem; by rewrite Hn).
  assert (forall e f, is_ConfigEntryAuthFailed e = false ->
            setup_entry_handler w entry e f = (Raise (KeyError (KStr CONF_NAME)), f))
    as Hh.
  { intros e [fh fa] He. unfold setup_entry_handler. rewrite He.
    unfold_frame. unfold getitem. by rewrite Hn. }
  rewrite async_setup_entry_run. unfold try_except. unfold setup_entry_body.
  cbv [mbind M_bind mret M_ret on_hass await modify set_api]. frame_step.
  set (d := ensure_domain (hass_data h)).
  assert (is_Some (d !! DOMAIN)) as Hd by apply ensure_domain_lookup_some.
  assert (forall e f,
            (is_ConfigEntryAuthFailed e = true
             /\ setup_entry_handler w entry e f = (Raise e, f))
            \/ setup_entry_handler w entry e f
               = (Raise (KeyError (KStr CONF_NAME)), f)) as Hcases.
  { intros e f. destruct (is_ConfigEntryAuthFailed e) eqn:He.
    - left. split; [done|]. by apply setup_entry_handler_auth.
    - right. by apply Hh. }
  destruct (new_DockerAPI w d (entry_data entry)) as [a|e] eqn:En; frame_step.
  2:{ destruct (Hcases e {| frame_hass :=
          {| hass_data := d;
             hass_trace := hass_trace h ++ [(d, CallDockerAPI (entry_data entry))] |};
          frame_api := None |}) as [[He ->]| ->];
        eexists _, _; frame_step;
        (split; [reflexivity|]); (split; [repeat constructor|]);
        (split; [reflexivity|]); (split; [by auto|]); intros; simplify_eq; congruence. }
  destruct (api_init w d a) as [[]|e] eqn:Ei; frame_step.
  2:{ lazymatch goal with
      | |- context [setup_entry_handler w entry e ?f] =>
          destruct (Hcases e f) as [[He ->]| ->]
      end;
        eexists _, _; frame_step; rewrite <- ?app_assoc;
        (split; [reflexivity|]); (split; [repeat constructor|]);
        (split; [reflexivity|]); (split; [by auto|]); intros; simplify_eq; congruence. }
  destruct (api_run w d a) as [[]|e] eqn:Er; frame_step.
  2:{ lazymatch goal with
      | |- context [setup_entry_handler w entry e ?f] =>
          destruct (Hcases e f) as [[He ->]| ->]
      end;
        eexists _, _; frame_step; rewrite <- ?app_assoc;
        (split; [reflexivity|]); (split; [repeat constructor|]);
        (split; [reflexivity|]); (split; [by auto|]); intros; simplify_eq; congruence. }
  rewrite store_entry_run by done. rewrite Hk. frame_step.
  rewrite Hh by done. eexists _, _. frame_step. rewrite <- ?app_assoc.
  (split; [reflexivity|]); (split; [repeat constructor|]).
  (split; [reflexivity|]); (split; [by auto|]). intros; by simplify_eq.
Qed.

(** X2: when the constructor, [init()], [run()] and the stores succeed
    and the forwarding to the platforms raises, the setup does not return,
    and the host's record stays in [hass.data] with the API object in it,
    where an unload will find it; for an exception other than
    [ConfigEntryAuthFailed] that API object is the one [destroy()] was
    awaited on during the run. *)
Theorem failed_forward_keeps_record entry h a k e :
  let d := ensure_domain (hass_data h) in
  new_DockerAPI w d (entry_data entry) = Ok a ->
  api_init w d a = Ok tt ->
  api_run w d a = Ok tt ->
  host_key entry = Ok k ->
  forward_entry_setups w (with_host d k (host_record entry a)) entry PLATFORMS
    = Raise e ->
  (forall b, (async_setup_entry w entry h).1 <> Ok b)
  /\ lookup_slot (hass_data (async_setup_entry w entry h).2) k API
     = Some (SlotApi a)
  /\ stored_api entry (hass_data (async_setup_entry w entry h).2) = Ok a
  /\ (is_ConfigEntryAuthFailed e = false ->
      exists calls d',
        hass_trace (async_setup_entry w entry h).2 = hass_trace h ++ calls
        /\ (d', CallDestroy a) ∈ calls).
Proof.
  intros d Hn Hi Hr Hk Hf.
  pose proof (async_setup_entry_data entry h) as Hd. cbn zeta in Hd.
  fold d in Hd. rewrite Hn, Hi, Hr, Hk in Hd.
  assert (setup_raises w entry d (Some a) e) as Hraise
    by by apply (raises_in_platform_setup w entry d a k e).
  split; [|split; [|split]].
  - intros b Hb. rewrite async_setup_entry_run in Hb. unfold try_except in Hb.
    destruct (setup_entry_body_raises w entry _ (hass_trace h) _ _
                (ensure_domain_lookup_some _) Hraise) as (calls & d' & Eb & _).
    fold d in Hb. unfold d in Eb. unfold d in Hb. rewrite Eb in Hb.
    pose proof (setup_entry_handler_raises w entry e
      {| frame_hass := {| hass_data := d'; hass_trace := hass_trace h ++ calls |};
         frame_api := Some a |}) as Hh.
    destruct (setup_entry_handler w entry e _) as [[b'|] f']; [|done].
    by destruct (Hh b').
  - by rewrite Hd, with_host_lookup_slot, host_record_API.
  - rewrite Hd. by apply stored_api_with_host.
  - intros He.
    assert (is_Some (entry_data entry !! CONF_NAME)) as [name Hname].
    { unfold host_key, getitem in Hk.
      destruct (entry_data entry !! CONF_NAME); [eauto|done]. }
    destruct (setup_other_failure_run w entry h a e name Hraise He Hname)
      as (pre & d' & -> & _).
    eexists _, d'. cbn [snd hass_trace]. split; [reflexivity|].
    rewrite !elem_of_app, !elem_of_cons. auto.
Qed.

(** The domain is a key of [hass.data] after every run. *)
Lemma async_setup_entry_domain entry h :
  is_Some (hass_data (async_setup_entry w entry h).2 !! DOMAIN).
Proof.
  rewrite async_setup_entry_data.
  assert (forall k r, is_Some (with_host (ensure_domain (hass_data h)) k r !! DOMAIN))
    as Hw by (intros; unfold with_host; rewrite lookup_insert_eq; eauto).
  pose proof (ensure_domain_lookup_some (hass_data h)).
  repeat case_match; auto.
Qed.

(** X4: whatever its outcome, a run of the setup leaves the domain a key
    of [hass.data], leaves every other key of [hass.data] as it was, and
    leaves the record of every host but the entry's own as it was. *)
Theorem setup_touches_one_host entry h :
  let d := hass_data h in
  let d' := hass_data (async_setup_entry w entry h).2 in
  is_Some (d' !! DOMAIN)
  /\ (forall dom, dom <> DOMAIN -> d' !! dom = d !! dom)
  /\ (forall k', host_key entry <> Ok k' ->
        default ∅ (d' !! DOMAIN) !! k' = default ∅ (d !! DOMAIN) !! k').
Proof.
  intros d d'. subst d'. rewrite async_setup_entry_data. fold d.
  assert (forall dom, dom <> DOMAIN -> ensure_domain d !! dom = d !! dom) as Hdom.
  { intros dom Hne. unfold ensure_domain. case_bool_decide; [|done].
    by rewrite lookup_insert_ne. }
  assert (default ∅ (ensure_domain d !! DOMAIN) = default ∅ (d !! DOMAIN)) as Hhosts
    by by rewrite ensure_domain_lookup.
  destruct (new_DockerAPI w (ensure_domain d) (entry_data entry)) as [a|];
    [|split; [apply ensure_domain_lookup_some|by rewrite Hhosts]].
  destruct (api_init w (ensure_domain d) a) as [[]|] eqn:Ei;
    [|split; [apply ensure_domain_lookup_some|by rewrite Hhosts]].
  destruct (api_run w (ensure_domain d) a) as [[]|] eqn:Er;
    [|split; [apply ensure_domain_lookup_some|by rewrite Hhosts]].
  destruct (host_key entry) as [k|e0];
    [|split; [apply ensure_domain_lookup_some|by rewrite Hhosts]].
  split; [|split].
  - unfold with_host. rewrite lookup_insert_eq. eauto.
  - intros dom Hne. by rewrite with_host_other_domain, Hdom.
  - intros k' Hne. rewrite with_host_other_host, Hhosts; [done|congruence].
Qed.

(** X3: when the constructor, [init()] or [run()] raises, or the entry
    names no hashable host, the run stores nothing: [hass.data] is left as
    it was found, but for the empty dictionary put under the domain when
    the domain was not a key. *)
Theorem failed_setup_stores_nothing entry h :
  let d := ensure_domain (hass_data h) in
  (exists e, new_DockerAPI w d (entry_data entry) = Raise e)
  \/ (exists a e, new_DockerAPI w d (entry_data entry) = Ok a
                  /\ (api_init w d a = Raise e \/ api_run w d a = Raise e))
  \/ (exists e, host_key entry = Raise e) ->
  hass_data (async_setup_entry w entry h).2 = d.
Proof.
  intros d Hfail. rewrite async_setup_entry_data. fold d.
  destruct (new_DockerAPI w d (entry_data entry)) as [a|] eqn:En; [|done].
  destruct (api_init w d a) as [[]|] eqn:Ei; [|done].
  destruct (api_run w d a) as [[]|] eqn:Er; [|done].
  destruct (host_key entry) as [k|] eqn:Ek; [|done].
  destruct Hfail as [[e ?]|[(a' & e & ? & [?|?])|[e ?]]]; simplify_eq; congruence.
Qed.

(** X5: a second successful setup for a host name that is already set up
    puts the API object it creates in the place of the first one, which
    [async_unload_entry] no longer finds; no [destroy()] is awaited in
    either run, so the first API object is never torn down. *)
Theorem second_setup_replaces_api e1 e2 h b1 h1 b2 h2 :
  async_setup_entry w e1 h = (Ok b1, h1) ->
  async_setup_entry w e2 h1 = (Ok b2, h2) ->
  host_key e1 = host_key e2 ->
  exists a1 a2 k calls,
    host_key e2 = Ok k
    /\ stored_api e1 (hass_data h1) = Ok a1
    /\ new_DockerAPI w (hass_data h1) (entry_data e2) = Ok a2
    /\ stored_api e1 (hass_data h2) = Ok a2
    /\ lookup_slot (hass_data h2) k API = Some (SlotApi a2)
    /\ hass_trace h2 = hass_trace h ++ calls
    /\ Forall not_destroy calls.
Proof.
  intros Hrun1 Hrun2 Hkey.
  apply async_setup_entry_ok in Hrun1 as (a1 & k & _ & _ & _ & _ & Hk1 & _ & ->).
  apply async_setup_entry_ok in Hrun2 as (a2 & k2 & _ & Hn2 & _ & _ & Hk2 & _ & ->).
  cbn [hass_data hass_trace] in *.
  assert (k2 = k) as -> by congruence.
  assert (ensure_domain (with_host (ensure_domain (hass_data h)) k (host_record e1 a1))
          = with_host (ensure_domain (hass_data h)) k (host_record e1 a1)) as Hens.
  { unfold ensure_domain at 1. rewrite bool_decide_eq_false_2; [done|].
    unfold with_host. by rewrite lookup_insert_eq. }
  rewrite Hens in *.
  eexists a1, a2, k, _. split; [done|]. split; [by apply stored_api_with_host|].
  split; [done|]. split.
  { unfold stored_api. rewrite Hk1.
    unfold with_host, getitem, getitem_key. rewrite !lookup_insert_eq. cbn.
    rewrite lookup_insert_eq. cbn. by rewrite host_record_API. }
  split; [by rewrite with_host_lookup_slot, host_record_API|].
  split; [by rewrite <- app_assoc|]. repeat constructor.
Qed.

(** X6: an unload that follows a successful setup of the same entry
    awaits [destroy()] on the very API object that setup created, then
    unloads the platforms and gives what the unload gives; when
    [destroy()] raises, the platforms are not unloaded. *)
Theorem unload_after_setup entry h b h' :
  async_setup_entry w entry h = (Ok b, h') ->
  exists a,
    new_DockerAPI w (ensure_domain (hass_data h)) (entry_data entry) = Ok a
    /\ let d := hass_data h' in
       let t := hass_trace h' ++ [(d, CallLogDebug "async_unload_entry")] in
       async_unload_entry w entry h' =
         match api_destroy w d a with
         | Ok _ =>
             (unload_platforms w d entry PLATFORMS,
              {| hass_data := d;
                 hass_trace := t ++ [(d, CallDestroy a);
                                     (d, CallUnloadPlatforms entry PLATFORMS)] |})
         | Raise e =>
             (Raise e,
              {| hass_data := d; hass_trace := t ++ [(d, CallDestroy a)] |})
         end.
Proof.
  intros Hrun.
  apply async_setup_entry_ok in Hrun as (a & k & _ & Hn & _ & _ & Hk & _ & ->).
  exists a. split; [done|]. apply async_unload_entry_found. cbn [hass_data].
  by apply stored_api_with_host.
Qed.

(** X7: [async_unload_entry] never writes [hass.data]: whatever its
    outcome the host's record stays, so the API object it destroyed is the
    one a later unload of the entry finds again. *)
Theorem unload_keeps_hass_data entry h :
  hass_data (async_unload_entry w entry h).2 = hass_data h
  /\ stored_api entry (hass_data (async_unload_entry w entry h).2)
     = stored_api entry (hass_data h).
Proof.
  assert (hass_data (async_unload_entry w entry h).2 = hass_data h) as Hd.
  { destruct h as [d t]. unfold async_unload_entry.
    cbv [mbind M_bind result_bind mret M_ret await tell get_data gets eval].
    cbn [hass_data hass_trace].
    destruct (getitem d DOMAIN) as [hosts|]; [|done].
    destruct (getitem (entry_data entry) CONF_NAME) as [name|]; [|done].
    destruct (py_key name) as [k|]; [|done].
    destruct (getitem_key hosts k) as [host|]; [|done].
    destruct (getitem host API) as [x|]; [|done].
    destruct (destroy_method x) as [a|]; [|done].
    by destruct (api_destroy w d a) as [[]|]. }
  by rewrite Hd.
Qed.

End setup_entry_more.

(** ** More on [async_setup] *)

Section setup_more.
Context `{Consts}.

Ltac step_setup :=
  repeat first
    [ rewrite entry_getitem_first
    | rewrite entry_setitem_first
    | rewrite the_entry_first
    | rewrite effect_first
    | rewrite insert_insert_eq
    | rewrite lookup_insert_eq
    | progress cbn [py_len py_contains_str py_list_remove andb]
    | progress unfold getitem ].

(** The state once [config[DOMAIN]] is known to start with [e]. *)
Lemma at_first_id cfg e rest effs :
  cfg !! DOMAIN = Some (e :: rest) ->
  {| setup_config := cfg; setup_effects := effs |} = at_first cfg e rest effs.
Proof. intros Hc. unfold at_first. by rewrite insert_id. Qed.

(** The loop runs its body once, on the first entry. *)
Lemma async_setup_loop cfg e rest effs :
  cfg !! DOMAIN = Some (e :: rest) ->
  async_setup {| setup_config := cfg; setup_effects := effs |}
  = match setup_loop_body 0 (at_first cfg e rest effs) with
    | (Ok (Return b), s) => (Ok b, s)
    | (Ok Next, s) =>
        (c ← for_each (seq 1 (length rest)) setup_loop_body;
         match c with Return b => mret b | Next => mret true end) s
    | (Raise err, s) => (Raise err, s)
    end.
Proof.
  intros Hc. unfold async_setup.
  cbv [mbind M_bind mret M_ret gets]. cbn [setup_config]. rewrite Hc.
  cbn [length seq for_each]. cbv [mbind M_bind mret M_ret].
  rewrite <- (at_first_id cfg e rest effs Hc).
  by destruct (setup_loop_body 0 _) as [[[|b]|err] s].
Qed.

Section first_entry.
Variables (cfg : gmap string (list (gmap string pyval)))
          (rest : list (gmap string pyval)) (effs : list setup_effect).

Local Abbreviation quiet := (quiet cfg rest effs).
Local Abbreviation imports_or_raises := (imports_or_raises cfg rest effs).

Lemma same_options_refl e : same_options e e.
Proof. by intros key _. Qed.

Lemma same_options_trans e1 e2 e3 :
  same_options e1 e2 -> same_options e2 e3 -> same_options e1 e3.
Proof. intros H12 H23 key Hk. by rewrite H12, H23. Qed.

Lemma quiet_ret {A} (a : A) : quiet (mret a).
Proof. intros e. exists (Ok a), e. split; [apply same_options_refl|done]. Qed.

Lemma quiet_eval {A} (r : result A) : quiet (eval r).
Proof. intros e. exists r, e. split; [apply same_options_refl|done]. Qed.

Lemma quiet_getitem key : quiet (entry_getitem 0 key).
Proof.
  intros e. exists (getitem e key), e. split; [apply same_options_refl|].
  apply entry_getitem_first.
Qed.

Lemma quiet_setitem v : quiet (entry_setitem 0 CONF_MONITORED_CONDITIONS v).
Proof.
  intros e. exists (Ok tt), (<[CONF_MONITORED_CONDITIONS := v]> e). split.
  - intros key Hk. by rewrite lookup_insert_ne.
  - apply entry_setitem_first.
Qed.

Lemma quiet_bind {A B} (c : M Setup A) (k : A -> M Setup B) :
  quiet c -> (forall a, quiet (k a)) -> quiet (c ≫= k).
Proof.
  intros Hc Hk e. destruct (Hc e) as (r & e1 & H1 & Hrun).
  cbv [mbind M_bind]. rewrite Hrun. destruct r as [a|err].
  - destruct (Hk a e1) as (r' & e2 & H2 & Hrun'). exists r', e2.
    split; [by eapply same_options_trans|done].
  - by exists (Raise err), e1.
Qed.

Lemma quiet_if {A} (b : bool) (c1 c2 : M Setup A) :
  quiet c1 -> quiet c2 -> quiet (if b then c1 else c2).
Proof. by destruct b. Qed.

Lemma imports_bind {A} (c : M Setup A) (k : A -> M Setup (completion bool)) :
  quiet c -> (forall a, imports_or_raises (k a)) -> imports_or_raises (c ≫= k).
Proof.
  intros Hc Hk e. destruct (Hc e) as (r & e1 & H1 & Hrun).
  cbv [mbind M_bind]. rewrite Hrun. destruct r as [a|err].
  - destruct (Hk a e1) as (e2 & H2 & Hrun'). exists e2.
    split; [by eapply same_options_trans|done].
  - exists e1. split; [done|]. right. by exists err.
Qed.

(** The last statements of the loop body. *)
Lemma imports_first :
  imports_or_raises
    (entry ← the_entry 0;
     effect (LogStartingFlow (entry !! CONF_NAME) entry);;
     entry ← the_entry 0;
     effect (CreateImportTask DOMAIN SOURCE_IMPORT entry);;
     mret (Return true)).
Proof.
  intros e. exists e. split; [apply same_options_refl|]. left.
  cbv [mbind M_bind mret M_ret]. step_setup. by rewrite <- app_assoc.
Qed.

(** However the body ends for the first entry, it has changed nothing but
    that entry's monitored conditions, and it has asked for the import if
    and only if it returns. *)
Lemma setup_loop_body_outcome : imports_or_raises (setup_loop_body 0).
Proof.
  unfold setup_loop_body.
  let rec statements n :=
    lazymatch n with
    | O => apply imports_first
    | S ?m => apply imports_bind; [|intros ?; statements m]
    end in
  statements 7%nat;
    repeat first
      [ apply quiet_getitem | apply quiet_setitem | apply quiet_eval
      | apply quiet_ret | apply quiet_if | apply quiet_bind; [|intros ?] ].
Qed.

End first_entry.

(** X11: [async_setup] never returns [False].  Without the domain in the
    configuration, or with an empty list under it, it returns [True] and
    touches nothing.  With a first entry it either returns [True], having
    logged and created the import task of that entry alone, or raises
    without having logged or created anything; either way the entries
    after the first, the other keys of the configuration and every option
    of the first entry but its monitored conditions are as they were. *)
Theorem setup_outcome cfg effs :
  let s := {| setup_config := cfg; setup_effects := effs |} in
  match cfg !! DOMAIN with
  | None | Some [] => async_setup s = (Ok true, s)
  | Some (e :: rest) =>
      exists e',
        (forall key, key <> CONF_MONITORED_CONDITIONS -> e' !! key = e !! key)
        /\ (async_setup s
            = (Ok true,
               {| setup_config := <[DOMAIN := e' :: rest]> cfg;
                  setup_effects :=
                    effs ++ [LogStartingFlow (e' !! CONF_NAME) e';
                             CreateImportTask DOMAIN SOURCE_IMPORT e'] |})
            \/ exists err,
                 async_setup s
                 = (Raise err,
                    {| setup_config := <[DOMAIN := e' :: rest]> cfg;
                       setup_effects := effs |}))
  end.
Proof.
  intros s. subst s. destruct (cfg !! DOMAIN) as [[|e rest]|] eqn:Hc.
  - unfold async_setup. cbv [mbind M_bind mret M_ret gets]. cbn [setup_config].
    by rewrite Hc.
  - rewrite (async_setup_loop cfg e rest effs Hc).
    destruct (setup_loop_body_outcome cfg rest effs e) as (e' & Hkeys & [-> | [err ->]]);
      exists e'; (split; [done|]); [by left | right; by exists err].
  - unfold async_setup. cbv [mbind M_bind mret M_ret gets]. cbn [setup_config].
    by rewrite Hc.
Qed.

(** The loop body leaves a list alone that is neither empty nor made of the
    all-in-one condition only. *)
Lemma setup_loop_body_other cfg e rest effs l :
  e !! CONF_MONITORED_CONDITIONS = Some (VList l) ->
  l <> [] ->
  (length l = 1%nat -> existsb (py_eq_str CONTAINER_INFO_ALLINONE) l = false) ->
  setup_loop_body 0 (at_first cfg e rest effs)
  = (Ok (Return true),
     at_first cfg e rest
       (effs ++ [LogStartingFlow (e !! CONF_NAME) e;
                 CreateImportTask DOMAIN SOURCE_IMPORT e])).
Proof.
  intros Hl Hne Hone. unfold setup_loop_body.
  cbv [mbind M_bind mret M_ret eval].
  step_setup. rewrite Hl. step_setup.
  destruct l as [|x l]; [done|].
  rewrite bool_decide_eq_false_2 by done. step_setup. rewrite !Hl. step_setup.
  case_bool_decide as El; step_setup.
  - rewrite Hl. step_setup. rewrite (Hone El). step_setup.
    by rewrite <- app_assoc.
  - by rewrite <- app_assoc.
Qed.

(** X12: a first entry whose monitored conditions are a list that is
    neither empty nor the all-in-one condition alone is imported as it is:
    [async_setup] returns [True], the configuration is unchanged and the
    import task carries the entry itself. *)
Theorem setup_keeps_other_conditions cfg effs e rest l :
  cfg !! DOMAIN = Some (e :: rest) ->
  e !! CONF_MONITORED_CONDITIONS = Some (VList l) ->
  l <> [] ->
  (length l = 1%nat -> existsb (py_eq_str CONTAINER_INFO_ALLINONE) l = false) ->
  async_setup {| setup_config := cfg; setup_effects := effs |}
  = (Ok true,
     {| setup_config := cfg;
        setup_effects :=
          effs ++ [LogStartingFlow (e !! CONF_NAME) e;
                   CreateImportTask DOMAIN SOURCE_IMPORT e] |}).
Proof.
  intros Hc Hl Hne Hone. rewrite (async_setup_loop cfg e rest effs Hc).
  rewrite (setup_loop_body_other cfg e rest effs l) by done.
  unfold at_first. by rewrite insert_id.
Qed.

End setup_more.

(** ** More on [DOCKER_SCHEMA] *)

Section schema_generic_more.

Lemma omap_nil_iff {A B} (f : A -> option B) l :
  omap f l = [] <-> Forall (fun x => f x = None) l.
Proof.
  split; [apply omap_nil_Forall|].
  induction 1 as [|x l Hx _ IH]; [done|]. cbn. by rewrite Hx.
Qed.

(** A schema accepts when every item, given or default, passes. *)
Lemma vol_Schema_accepts schema data :
  is_Ok (vol_Schema schema data) = true <->
  forall k v, with_defaults schema data !! k = Some v ->
              is_Ok (validate_item schema k v) = true.
Proof.
  unfold vol_Schema. split.
  - destruct (omap _ _) eqn:Eo; [|done]. intros _ k v Hk.
    apply omap_nil_Forall in Eo. rewrite Forall_forall in Eo.
    apply elem_of_map_to_list in Hk. specialize (Eo _ Hk). cbn in Eo.
    by destruct (validate_item schema k v).
  - intros Hall.
    assert (omap (fun kv : string * pyval =>
                    match validate_item schema kv.1 kv.2 with
                    | Ok _ => None
                    | Raise e => Some e
                    end) (map_to_list (with_defaults schema data)) = []) as ->; [|done].
    apply omap_nil_iff, Forall_forall. intros [k v] Hk%elem_of_map_to_list.
    specialize (Hall k v Hk). cbn. by destruct (validate_item schema k v).
Qed.

(** A dictionary that has every key of the schema, each with a value its
    validator leaves as it is, is its own validation. *)
Lemma vol_Schema_fixed schema out :
  (forall k v, out !! k = Some v -> validate_item schema k v = Ok v) ->
  (forall m, m ∈ schema -> is_Some (out !! opt_key m)) ->
  NoDup (opt_key <$> schema) ->
  vol_Schema schema out = Ok out.
Proof.
  intros Hfix Hkeys Hnd.
  assert (with_defaults schema out = out) as Hfull.
  { apply map_eq. intros k. rewrite with_defaults_lookup by done.
    destruct (out !! k) eqn:Ek; [done|].
    destruct (find_marker schema k) as [m|] eqn:Ef; [|done].
    apply find_marker_Some in Ef as [Hm <-].
    destruct (Hkeys m Hm) as [v Hv]. congruence. }
  unfold vol_Schema. rewrite Hfull.
  assert (omap (fun kv : string * pyval =>
                  match validate_item schema kv.1 kv.2 with
                  | Ok _ => None
                  | Raise e => Some e
                  end) (map_to_list out) = []) as ->.
  { apply omap_nil_iff, Forall_forall. intros [k v] Hk%elem_of_map_to_list.
    cbn. by rewrite (Hfix k v). }
  f_equal. apply map_eq. intros k. rewrite map_lookup_imap.
  destruct (out !! k) as [v|] eqn:Ek; [|done]. cbn. by rewrite (Hfix k v).
Qed.

Lemma validate_items_fixed (f : validator) l l' :
  (forall x x', f x = Ok x' -> f x' = Ok x') ->
  validate_items f l = Ok l' -> validate_items f l' = Ok l'.
Proof.
  intros Hf. revert l'. induction l as [|x l IH]; intros l'; cbn.
  - by intros [= <-].
  - unfold mbind, result_bind.
    destruct (f x) as [x'|] eqn:Ex; [|done].
    destruct (validate_items f l) as [r|] eqn:El; [|done].
    intros [= <-]. cbn. unfold mbind, result_bind.
    by rewrite (Hf x x'), (IH r).
Qed.

Lemma vol_Any_one (f : validator) v : vol_Any [f] v =
  match f v with Ok v' => Ok v' | Raise _ => Raise (Invalid "no valid value found") end.
Proof. done. Qed.

Lemma vol_Sequence_fixed (f : validator) v v' :
  (forall x x', f x = Ok x' -> f x' = Ok x') ->
  vol_Sequence [f] v = Ok v' -> vol_Sequence [f] v' = Ok v'.
Proof.
  intros Hf. unfold vol_Sequence. destruct v as [| | | |l|]; try done.
  unfold mbind, result_bind.
  destruct (validate_items (vol_Any [f]) l) as [l'|] eqn:El; [|done].
  intros [= <-]. rewrite (validate_items_fixed (vol_Any [f]) l l'); [done| |done].
  intros x x'. rewrite !vol_Any_one.
  destruct (f x) as [y|] eqn:Ex; [|done]. intros [= <-]. by rewrite (Hf x y).
Qed.

Lemma vol_Sequence_list (vs : list validator) v v' :
  vol_Sequence vs v = Ok v' -> exists l', v' = VList l'.
Proof.
  unfold vol_Sequence. destruct v as [| | | |l|]; try done.
  unfold mbind, result_bind. destruct (validate_items _ l) as [l'|]; [|done].
  intros [= <-]. eauto.
Qed.

Lemma cv_string_fixed v v' : cv_string v = Ok v' -> cv_string v' = Ok v'.
Proof. destruct v; cbn; try done; by intros [= <-]. Qed.

Lemma cv_ensure_list_fixed v v' :
  cv_ensure_list v = Ok v' -> cv_ensure_list v' = Ok v'.
Proof. destruct v; cbn; by intros [= <-]. Qed.

Lemma cv_ensure_list_list v v' :
  cv_ensure_list v = Ok v' -> exists l, v' = VList l.
Proof. destruct v; cbn; intros [= <-]; eauto. Qed.

Lemma vol_dict_fixed v v' : vol_dict v = Ok v' -> vol_dict v' = Ok v'.
Proof. destruct v; cbn; try done; by intros [= <-]. Qed.

Lemma vol_In_fixed c v v' : vol_In c v = Ok v' -> vol_In c v' = Ok v'.
Proof.
  destruct v as [| | |s| |]; cbn; try done.
  case_bool_decide as E; [|done]. intros [= <-]. cbn.
  by rewrite bool_decide_eq_true_2.
Qed.

Lemma vol_In_string c v v' :
  vol_In c v = Ok v' -> exists s, v' = VStr s /\ s ∈ c.
Proof.
  destruct v as [| | |s| |]; cbn; try done.
  case_bool_decide as E; [|done]. intros [= <-]. eauto.
Qed.

Lemma validate_items_In c l l' :
  validate_items (vol_Any [vol_In c]) l = Ok l' ->
  exists ls, l' = VStr <$> ls /\ Forall (fun s => s ∈ c) ls.
Proof.
  revert l'. induction l as [|x l IH]; intros l'; cbn.
  - intros [= <-]. by exists [].
  - unfold mbind, result_bind.
    destruct (vol_In c x) as [x'|] eqn:Ex; [|done].
    destruct (validate_items _ l) as [r|] eqn:El; [|done].
    intros [= <-]. apply vol_In_string in Ex as (s & -> & Hs).
    destruct (IH r eq_refl) as (ls & -> & Hls).
    exists (s :: ls). split; [done|]. by constructor.
Qed.

End schema_generic_more.

Section schema_more.
Context `{Consts} `{Builtins}.

Lemma cv_boolean_bool v v' : cv_boolean v = Ok v' -> exists b, v' = VBool b.
Proof.
  destruct v as [|b|z|s| |]; cbn; try done; try (intros [= <-]; eauto).
  repeat case_bool_decide; try done; intros [= <-]; eauto.
Qed.

Lemma cv_boolean_fixed v v' : cv_boolean v = Ok v' -> cv_boolean v' = Ok v'.
Proof. by intros (b & ->)%cv_boolean_bool. Qed.

Lemma cv_positive_int_fixed v v' :
  cv_positive_int v = Ok v' -> cv_positive_int v' = Ok v'.
Proof.
  intros (n & -> & Hn)%cv_positive_int_Ok. unfold cv_positive_int. cbn.
  destruct (Z.ltb_spec n 0); [lia|done].
Qed.

(** What the validator of the monitored conditions accepts is a list of
    conditions of [MONITORED_CONDITIONS_LIST]. *)
Lemma conditions_checked v v' :
  vol_All [cv_ensure_list; vol_Sequence [vol_In MONITORED_CONDITIONS_LIST]] v = Ok v' ->
  exists ls, v' = VList (VStr <$> ls)
             /\ Forall (fun s => s ∈ MONITORED_CONDITIONS_LIST) ls.
Proof.
  cbn [vol_All]. unfold mbind, result_bind.
  destruct (cv_ensure_list v) as [v1|] eqn:E1; [|done].
  apply cv_ensure_list_list in E1 as [l ->].
  destruct (vol_Sequence _ (VList l)) as [v2|] eqn:E2; [|done].
  intros [= <-]. unfold vol_Sequence, mbind, result_bind in E2.
  destruct (validate_items _ l) as [l'|] eqn:El; [|done].
  injection E2 as <-. apply validate_items_In in El as (ls & -> & Hls). eauto.
Qed.

(** Every validator of [DOCKER_SCHEMA] leaves its own output as it is. *)
Lemma DOCKER_SCHEMA_check_fixed m v v' :
  m ∈ DOCKER_SCHEMA_markers ->
  opt_check m v = Ok v' -> opt_check m v' = Ok v'.
Proof.
  unfold DOCKER_SCHEMA_markers. intros Hm.
  repeat (apply elem_of_cons in Hm as [->|Hm]);
    try (by apply elem_of_nil in Hm); cbn [opt_check].
  all: try apply cv_string_fixed.
  all: try apply cv_positive_int_fixed.
  all: try apply cv_ensure_list_fixed.
  all: try apply vol_dict_fixed.
  all: try apply cv_boolean_fixed.
  - (* URL *)
    cbn [vol_Any]. destruct (cv_string v) as [s|] eqn:Es.
    + intros [= <-]. by rewrite (cv_string_fixed v s).
    + destruct v; cbn; try done. by intros [= <-].
  - (* monitored conditions *)
    intros Hv. destruct (conditions_checked v v' Hv) as (ls & -> & Hls).
    cbn [vol_All cv_ensure_list]. unfold mbind, result_bind.
    cbn [vol_All]. revert Hv. cbn [vol_All]. unfold mbind, result_bind.
    destruct (cv_ensure_list v) as [v1|]; [|done].
    destruct (vol_Sequence _ v1) as [v2|] eqn:E2; [|done]. intros [= ->].
    by rewrite (vol_Sequence_fixed _ v1 _ (vol_In_fixed _) E2).
  - (* switch enabled *)
    cbn [vol_Any]. destruct (cv_boolean v) as [b|] eqn:Eb.
    + intros [= <-]. by rewrite (cv_boolean_fixed v b).
    + destruct (vol_Sequence [cv_string] v) as [v2|] eqn:E2; [|done].
      intros [= <-]. destruct (vol_Sequence_list _ _ _ E2) as [l' ->]. cbn [cv_boolean].
      by rewrite (vol_Sequence_fixed _ v _ cv_string_fixed E2).
  - (* button enabled *)
    cbn [vol_Any]. destruct (cv_boolean v) as [b|] eqn:Eb.
    + intros [= <-]. by rewrite (cv_boolean_fixed v b).
    + destruct (vol_Sequence [cv_string] v) as [v2|] eqn:E2; [|done].
      intros [= <-]. destruct (vol_Sequence_list _ _ _ E2) as [l' ->]. cbn [cv_boolean].
      by rewrite (vol_Sequence_fixed _ v _ cv_string_fixed E2).
Qed.

(** What an accepted entry is made of. *)
Lemma DOCKER_SCHEMA_out data out :
  NoDup recognized_options ->
  DOCKER_SCHEMA data = Ok out ->
  (forall k, is_Some (out !! k) -> k ∈ recognized_options)
  /\ (forall m, m ∈ DOCKER_SCHEMA_markers ->
        exists v', opt_check m (default (opt_default m) (data !! opt_key m)) = Ok v'
                   /\ out !! opt_key m = Some v').
Proof.
  unfold recognized_options, DOCKER_SCHEMA. intros Hnd Hok.
  pose proof (vol_Schema_Ok _ _ _ Hok) as Hout. split.
  - intros k [v' Hv']. specialize (Hout k).
    rewrite with_defaults_lookup in Hout by done.
    destruct (data !! k) as [v|] eqn:Ed.
    + destruct Hout as (v'' & Hc & _). unfold validate_item in Hc.
      destruct (find_marker DOCKER_SCHEMA_markers k) as [m|] eqn:Ef; [|done].
      apply find_marker_Some in Ef as [Hm <-]. by apply list_elem_of_fmap_2.
    + destruct (find_marker DOCKER_SCHEMA_markers k) as [m|] eqn:Ef.
      * apply find_marker_Some in Ef as [Hm <-]. by apply list_elem_of_fmap_2.
      * cbn in Hout. congruence.
  - intros m Hm. specialize (Hout (opt_key m)).
    rewrite with_defaults_lookup, find_marker_elem_of in Hout by done.
    unfold validate_item in Hout. rewrite find_marker_elem_of in Hout by done.
    by destruct (data !! opt_key m).
Qed.

(** X13: when the markers of the schema have different keys,
    [DOCKER_SCHEMA] accepts an entry if and only if every key of the entry
    is a recognized option and, for every marker, the validator accepts
    the value given for its key or, when none is given, its default. *)
Theorem docker_schema_accepts data :
  NoDup recognized_options ->
  is_Ok (DOCKER_SCHEMA data) = true <->
  (forall k, is_Some (data !! k) -> k ∈ recognized_options)
  /\ (forall m, m ∈ DOCKER_SCHEMA_markers ->
        is_Ok (opt_check m (default (opt_default m) (data !! opt_key m))) = true).
Proof.
  unfold recognized_options, DOCKER_SCHEMA. intros Hnd.
  rewrite vol_Schema_accepts. split.
  - intros Hall. split.
    + intros k [v Hv]. specialize (Hall k v).
      rewrite with_defaults_lookup, Hv in Hall by done. specialize (Hall eq_refl).
      unfold validate_item in Hall.
      destruct (find_marker DOCKER_SCHEMA_markers k) as [m|] eqn:Ef; [|done].
      apply find_marker_Some in Ef as [Hm <-]. by apply list_elem_of_fmap_2.
    + intros m Hm.
      specialize (Hall (opt_key m) (default (opt_default m) (data !! opt_key m))).
      rewrite with_defaults_lookup, find_marker_elem_of in Hall by done.
      unfold validate_item in Hall. rewrite find_marker_elem_of in Hall by done.
      apply Hall. by destruct (data !! opt_key m).
  - intros [Hknown Hchecks] k v Hk.
    rewrite with_defaults_lookup in Hk by done. unfold validate_item.
    destruct (data !! k) as [v0|] eqn:Ed.
    + injection Hk as ->.
      assert (k ∈ opt_key <$> DOCKER_SCHEMA_markers) as Hin
        by (apply Hknown; by rewrite Ed).
      apply list_elem_of_fmap in Hin as (m & -> & Hm).
      rewrite find_marker_elem_of by done.
      specialize (Hchecks m Hm). by rewrite Ed in Hchecks.
    + destruct (find_marker DOCKER_SCHEMA_markers k) as [m|] eqn:Ef; [|done].
      injection Hk as <-. apply find_marker_Some in Ef as [Hm <-].
      specialize (Hchecks m Hm). by rewrite Ed in Hchecks.
Qed.

(** X14: a validated entry is its own validation: when [DOCKER_SCHEMA]
    accepts [data] and gives [out], it accepts [out] and gives [out]
    again. *)
Theorem docker_schema_idempotent data out :
  NoDup recognized_options ->
  DOCKER_SCHEMA data = Ok out ->
  DOCKER_SCHEMA out = Ok out.
Proof.
  intros Hnd Hok. destruct (DOCKER_SCHEMA_out data out Hnd Hok) as [Hknown Hmarkers].
  apply vol_Schema_fixed; [| |done].
  - intros k v Hk.
    assert (k ∈ opt_key <$> DOCKER_SCHEMA_markers) as Hin
      by (apply Hknown; by rewrite Hk).
    apply list_elem_of_fmap in Hin as (m & -> & Hm).
    unfold validate_item. rewrite find_marker_elem_of by done.
    destruct (Hmarkers m Hm) as (v' & Hc & Hv'). simplify_eq.
    by eapply DOCKER_SCHEMA_check_fixed.
  - intros m Hm. destruct (Hmarkers m Hm) as (v' & _ & ->). eauto.
Qed.

Lemma without_first_subseteq a l x : x ∈ without_first a l -> x ∈ l.
Proof.
  induction l as [|y l IH]; cbn; [done|].
  case_bool_decide; rewrite ?elem_of_cons; intuition.
Qed.

(** The two [if] statements of [async_setup] keep a list of conditions of
    [MONITORED_CONDITIONS_LIST] a list of such conditions. *)
Lemma expanded_conditions_strings ls :
  CONTAINER_INFO_ALLINONE ∈ MONITORED_CONDITIONS_LIST ->
  Forall (fun s => s ∈ MONITORED_CONDITIONS_LIST) ls ->
  exists ls', expanded_conditions (VStr <$> ls) = VStr <$> ls'
              /\ Forall (fun s => s ∈ MONITORED_CONDITIONS_LIST) ls'.
Proof.
  intros Hin Hls. unfold expanded_conditions.
  assert (Forall (fun s => s ∈ MONITORED_CONDITIONS_LIST)
            (MONITORED_CONDITIONS_LIST ++ [CONTAINER_INFO_ALLINONE])) as Hall.
  { apply Forall_app. split; [by apply Forall_forall|by constructor]. }
  assert (Forall (fun s => s ∈ MONITORED_CONDITIONS_LIST)
            (without_first CONTAINER_INFO_ALLINONE MONITORED_CONDITIONS_LIST)) as Hwf.
  { apply Forall_forall. intros x. apply without_first_subseteq. }
  destruct ls as [|s ls]; cbn [fmap list_fmap].
  - destruct (_ && _); eauto.
  - fold (fmap (M:=list) VStr ls). change (VStr s :: (VStr <$> ls)) with (VStr <$> s :: ls).
    destruct (_ && _); eauto.
Qed.

(** X15: the schema and [async_setup] fit together: when the first entry
    of the domain's list is an entry [DOCKER_SCHEMA] gave, and the
    all-in-one condition is one of [MONITORED_CONDITIONS_LIST],
    [async_setup] raises nothing, returns [True] and imports that entry
    with a list of monitored conditions all taken from
    [MONITORED_CONDITIONS_LIST]. *)
Theorem validated_entry_is_imported data e cfg effs rest :
  NoDup recognized_options ->
  CONTAINER_INFO_ALLINONE ∈ MONITORED_CONDITIONS_LIST ->
  DOCKER_SCHEMA data = Ok e ->
  cfg !! DOMAIN = Some (e :: rest) ->
  exists ls,
    Forall (fun s => s ∈ MONITORED_CONDITIONS_LIST) ls
    /\ let e' := with_conditions e ls in
       async_setup {| setup_config := cfg; setup_effects := effs |}
       = (Ok true,
          {| setup_config := <[DOMAIN := e' :: rest]> cfg;
             setup_effects :=
               effs ++ [LogStartingFlow (e' !! CONF_NAME) e';
                        CreateImportTask DOMAIN SOURCE_IMPORT e'] |}).
Proof.
  intros Hnd Hin Hok Hc.
  destruct (DOCKER_SCHEMA_out data e Hnd Hok) as [_ Hmarkers].
  destruct (Hmarkers _ (list_elem_of_lookup_2 DOCKER_SCHEMA_markers 4%nat _ eq_refl))
    as (v' & Hcheck & Hv'). cbn [opt_key opt_check opt_default] in *.
  apply conditions_checked in Hcheck as (ls & -> & Hls).
  destruct (expanded_conditions_strings ls Hin Hls) as (ls' & Hexp & Hls').
  exists ls'. split; [done|]. unfold with_conditions. rewrite <- Hexp.
  by apply (async_setup_first _ _ _ _ (VStr <$> ls)).
Qed.

End schema_more.

(** ** [async_migrate_entry] *)

Section migrate_run.
Context `{FlowVersion} (async_update_entry : update_entry) (str : exn -> string).

Ltac unfold_migrate :=
  cbv [async_migrate_entry migrate_steps migrate_log try_except
       mbind M_bind mret M_ret gets modify raise];
  cbn [mig_entry mig_trace].

Lemma newer_refused_spec (e : VersionedEntry) :
  newer_than_installed e <->
  ((version e >? VERSION)%Z
   || (version e =? VERSION)%Z && (minor_version e >? MINOR_VERSION)%Z) = true.
Proof.
  unfold newer_than_installed.
  rewrite orb_true_iff, andb_true_iff, !Z.gtb_gt, Z.eqb_eq. lia.
Qed.

(** X9: [async_migrate_entry] returns [False] exactly when the entry's
    version is ahead of the installed one (a greater major version, or the
    same major version and a greater minor version); it then leaves the
    entry as it is and never calls [async_update_entry]. *)
Theorem migrate_refuses_downgrade (e : VersionedEntry) (t : list migrate_call) :
  let run := async_migrate_entry async_update_entry str
               {| mig_entry := e; mig_trace := t |} in
  (run.1 = Ok false <-> newer_than_installed e)
  /\ (newer_than_installed e ->
      mig_entry run.2 = e
      /\ exists logs, mig_trace run.2 = t ++ logs /\ Forall not_update logs).
Proof.
  intros run. subst run. rewrite newer_refused_spec. unfold_migrate.
  destruct (version e >? VERSION)%Z eqn:Ev; cbn [orb andb mig_entry mig_trace fst snd].
  { split; [done|]. intros _. split; [done|].
    rewrite <- app_assoc. eexists. split; [done|]. repeat constructor. }
  destruct ((version e =? VERSION)%Z && (minor_version e >? MINOR_VERSION)%Z) eqn:Em;
    cbn [orb andb mig_entry mig_trace fst snd].
  { split; [done|]. intros _. split; [done|].
    rewrite <- app_assoc. eexists. split; [done|]. repeat constructor. }
  split; [|done].
  destruct (version e =? 1)%Z; cbn [mig_entry mig_trace fst snd];
    by destruct (async_update_entry e _ VERSION MINOR_VERSION).
Qed.

(** X10: an entry whose version is not ahead of the installed one is
    handed to [async_update_entry] once, with its own data unchanged and
    the installed major and minor version, whatever its version was; when
    the update returns, the success is logged with the version the entry
    has after the update and [True] is returned; when it raises, the
    exception reaches the caller. *)
Theorem migrate_stamps_version (e : VersionedEntry) (t : list migrate_call) :
  ~ newer_than_installed e ->
  let data := entry_data (ve_entry e) in
  let t' := t ++ [MigrateLog
                    {| record_level := DEBUG;
                       record_msg := "Attempting migrating configuration from version %s.%s";
                       record_args := [VInt (version e); VInt (minor_version e)] |};
                  CallUpdateEntry e data VERSION MINOR_VERSION] in
  async_migrate_entry async_update_entry str {| mig_entry := e; mig_trace := t |}
  = match async_update_entry e data VERSION MINOR_VERSION with
    | Ok e' =>
        (Ok true,
         {| mig_entry := e';
            mig_trace := t' ++
              [MigrateLog
                 {| record_level := INFO;
                    record_msg :=
                      "Migration configuration from version %s.%s to %s.%s successful";
                    record_args := [VInt (version e'); VInt (minor_version e');
                                    VInt VERSION; VInt MINOR_VERSION] |}] |})
    | Raise err => (Raise err, {| mig_entry := e; mig_trace := t' |})
    end.
Proof.
  rewrite newer_refused_spec. intros Hn%not_true_is_false.
  apply orb_false_iff in Hn as [Ev Em]. intros data t'. subst data t'.
  unfold_migrate. rewrite Ev, Em. cbn [mig_entry mig_trace].
  destruct (version e =? 1)%Z; cbn [mig_entry mig_trace]; rewrite <- !app_assoc;
    by destruct (async_update_entry e _ VERSION MINOR_VERSION).
Qed.

End migrate_run.

(** ** [async_reset_platform] *)

Section reset_run.
Context `{Consts} (w : World).

(** X8: once [async_setup_entry] has run, with whatever outcome,
    [async_reset_platform] logs nothing; on a [hass.data] without the
    domain it logs the error that the integration is not loaded.  In
    both cases it returns. *)
Theorem reset_after_setup_is_silent entry h name logs :
  async_reset_platform (hass_data (async_setup_entry w entry h).2) name logs
  = (Ok tt, logs)
  /\ (hass_data h !! DOMAIN = None ->
      async_reset_platform (hass_data h) name logs
      = (Ok tt, logs ++ [{| record_level := ERROR;
                            record_msg := "Monitor_docker not loaded";
                            record_args := [] |}])).
Proof.
  unfold async_reset_platform. split.
  - rewrite bool_decide_eq_false_2; [done|].
    apply not_eq_None_Some, async_setup_entry_domain.
  - intros Hd. by rewrite bool_decide_eq_true_2.
Qed.

End reset_run.

(** ** [CONFIG_SCHEMA] *)

Section config_schema_run.
Context `{Consts} `{Builtins}.

(** An item of the domain's list and what the schema makes of it. *)
Lemma DOCKER_SCHEMA_validator_Ok v v' :
  DOCKER_SCHEMA_validator v = Ok v' ->
  exists d out, v = VDict d
                /\ DOCKER_SCHEMA (list_to_map d) = Ok out
                /\ v' = VDict (map_to_list out).
Proof.
  unfold DOCKER_SCHEMA_validator. destruct v as [| | | | |d]; try done.
  unfold mbind, result_bind.
  destruct (DOCKER_SCHEMA (list_to_map d)) as [out|] eqn:Ed; [|done].
  intros [= <-]. eauto.
Qed.

Lemma validate_entries_Ok l l' :
  validate_items (vol_Any [vol_Any [DOCKER_SCHEMA_validator]]) l = Ok l' ->
  Forall2 (fun v v' => DOCKER_SCHEMA_validator v = Ok v') l l'.
Proof.
  revert l'. induction l as [|x l IH]; intros l'; cbn.
  - intros [= <-]. constructor.
  - unfold mbind, result_bind.
    destruct (DOCKER_SCHEMA_validator x) as [x'|] eqn:Ex; [|done].
    destruct (validate_items _ l) as [r|] eqn:El; [|done].
    intros [= <-]. constructor; [done|]. by apply IH.
Qed.

(** X16: [CONFIG_SCHEMA] accepts a configuration without the domain as it
    is.  In a configuration it accepts, every other key has the value it
    had, and what was under the domain, made a list by [cv.ensure_list] (a
    single mapping becomes a list of one), has become the list of its
    items' validations by [DOCKER_SCHEMA], item by item and in order. *)
Theorem config_schema_validates config :
  (config !! DOMAIN = None -> CONFIG_SCHEMA config = Ok config)
  /\ (forall config',
        CONFIG_SCHEMA config = Ok config' ->
        (forall dom, dom <> DOMAIN -> config' !! dom = config !! dom)
        /\ (forall v,
              config !! DOMAIN = Some v ->
              exists items outs,
                cv_ensure_list v = Ok (VList items)
                /\ config' !! DOMAIN = Some (VList outs)
                /\ Forall2 (fun item out =>
                              exists d e, item = VDict d
                                          /\ DOCKER_SCHEMA (list_to_map d) = Ok e
                                          /\ out = VDict (map_to_list e))
                     items outs)).
Proof.
  unfold CONFIG_SCHEMA. split; [by intros ->|].
  intros config' Hok. split.
  - intros dom Hne. destruct (config !! DOMAIN) as [v|]; [|by injection Hok as <-].
    unfold mbind, result_bind in Hok. destruct (vol_All _ v) as [v'|]; [|done].
    injection Hok as <-. by rewrite lookup_insert_ne.
  - intros v Hv. rewrite Hv in Hok.
    cbn [vol_All] in Hok. unfold mbind, result_bind in Hok.
    destruct (cv_ensure_list v) as [v1|] eqn:E1; [|done].
    destruct (cv_ensure_list_list _ _ E1) as [items ->].
    unfold vol_Sequence, mbind, result_bind in Hok.
    destruct (validate_items _ items) as [outs|] eqn:El; [|done].
    injection Hok as <-. exists items, outs.
    split; [done|]. split; [by rewrite lookup_insert_eq|].
    apply validate_entries_Ok in El.
    eapply Forall2_impl; [exact El|].
    intros item out. apply DOCKER_SCHEMA_validator_Ok.
Qed.

End config_schema_run.

(** ** The further properties at the sample values *)

Lemma setup_without_name_witness :
  exists calls,
    hass_trace (async_setup_entry world_ok nameless_entry empty_hass).2 = calls
    /\ Forall not_destroy calls
    /\ (async_setup_entry world_ok nameless_entry empty_hass).1
       = Raise (KeyError (KStr "name")).
Proof.
  destruct (setup_without_name world_ok nameless_entry empty_hass)
    as (calls & e & Ht & Hnd & Hr & _ & Hall); [reflexivity|].
  destruct (Hall example_api) as [-> _]; [reflexivity..|].
  exists calls. split; [exact Ht|]. split; [exact Hnd | exact Hr].
Defined.

Lemma failed_forward_keeps_record_witness :
  stored_api example_entry
    (hass_data (async_setup_entry world_platform_failed example_entry empty_hass).2)
  = Ok example_api.
Proof.
  refine (proj1 (proj2 (proj2 (failed_forward_keeps_record world_platform_failed
            example_entry empty_hass example_api (KStr "nas")
            (OtherException "ValueError" "platform not found") _ _ _ _ _))));
    reflexivity.
Defined.

Lemma setup_touches_one_host_witness :
  hass_data (async_setup_entry world_ok example_entry empty_hass).2 !! "sensor"
  = None.
Proof.
  refine (proj1 (proj2 (setup_touches_one_host world_ok example_entry empty_hass))
            "sensor" _).
  cbn. discriminate.
Defined.

Lemma failed_setup_stores_nothing_witness :
  hass_data (async_setup_entry world_auth_failed example_entry empty_hass).2
  = ensure_domain (hass_data empty_hass).
Proof.
  apply (failed_setup_stores_nothing world_auth_failed example_entry empty_hass).
  right. left.
  exists example_api, (ConfigEntryAuthFailed "certificate rejected").
  split; [reflexivity|]. left. reflexivity.
Defined.

Lemma example_setup_counting :
  async_setup_entry world_counting example_entry empty_hass
  = (Ok true, (async_setup_entry world_counting example_entry empty_hass).2).
Proof. vm_compute. reflexivity. Qed.

Lemma example_setup_counting_again :
  async_setup_entry world_counting example_entry
    (async_setup_entry world_counting example_entry empty_hass).2
  = (Ok true,
     (async_setup_entry world_counting example_entry
        (async_setup_entry world_counting example_entry empty_hass).2).2).
Proof. vm_compute. reflexivity. Qed.

Lemma second_setup_replaces_api_witness :
  exists a1 a2 calls,
    stored_api example_entry
      (hass_data (async_setup_entry world_counting example_entry empty_hass).2)
    = Ok a1
    /\ stored_api example_entry
         (hass_data (async_setup_entry world_counting example_entry
            (async_setup_entry world_counting example_entry empty_hass).2).2)
       = Ok a2
    /\ hass_trace (async_setup_entry world_counting example_entry
         (async_setup_entry world_counting example_entry empty_hass).2).2 = calls
    /\ Forall not_destroy calls.
Proof.
  destruct (second_setup_replaces_api world_counting example_entry example_entry
              empty_hass true _ true _
              example_setup_counting example_setup_counting_again eq_refl)
    as (a1 & a2 & k & calls & _ & H1 & _ & H2 & _ & Ht & Hnd).
  exists a1, a2, calls. repeat split; assumption.
Defined.

Lemma unload_after_setup_witness :
  exists a,
    new_DockerAPI world_ok (ensure_domain (hass_data empty_hass))
      (entry_data example_entry) = Ok a
    /\ (async_unload_entry world_ok example_entry
          (async_setup_entry world_ok example_entry empty_hass).2).1 = Ok true.
Proof.
  destruct (unload_after_setup world_ok example_entry empty_hass true _
              example_setup_entry_ok) as (a & Hn & Hrun).
  exists a. split; [exact Hn|]. cbn zeta in Hrun. rewrite Hrun. reflexivity.
Defined.

Lemma reset_after_setup_is_silent_witness :
  async_reset_platform (hass_data empty_hass) "monitor_docker" []
  = (Ok tt, [{| record_level := ERROR;
                record_msg := "Monitor_docker not loaded";
                record_args := [] |}]).
Proof.
  apply (reset_after_setup_is_silent world_ok example_entry empty_hass
           "monitor_docker" []).
  reflexivity.
Defined.

Lemma migrate_refuses_downgrade_witness :
  (async_migrate_entry example_update (fun _ => "error")
     {| mig_entry := newer_entry; mig_trace := [] |}).1 = Ok false.
Proof.
  apply (migrate_refuses_downgrade example_update (fun _ => "error") newer_entry []).
  left. reflexivity.
Defined.

Lemma migrate_stamps_version_witness :
  (async_migrate_entry example_update (fun _ => "error")
     {| mig_entry := older_entry; mig_trace := [] |}).1 = Ok true.
Proof.
  rewrite (migrate_stamps_version example_update (fun _ => "error") older_entry []).
  - reflexivity.
  - intros [Hv | [Hv Hm]]; [discriminate Hv | discriminate Hm].
Defined.

Lemma setup_outcome_witness :
  async_setup (example_setup []) = (Ok true, example_setup []).
Proof. exact (setup_outcome {[ DOMAIN := [] ]} []). Defined.

Lemma setup_keeps_other_conditions_witness :
  (async_setup (example_setup [yaml_two_conditions; yaml_second])).1 = Ok true
  /\ setup_config (async_setup (example_setup [yaml_two_conditions; yaml_second])).2
     = setup_config (example_setup [yaml_two_conditions; yaml_second]).
Proof.
  assert (async_setup (example_setup [yaml_two_conditions; yaml_second])
          = (Ok true,
             {| setup_config := {[ DOMAIN := [yaml_two_conditions; yaml_second] ]};
                setup_effects :=
                  [] ++ [LogStartingFlow (yaml_two_conditions !! CONF_NAME)
                           yaml_two_conditions;
                         CreateImportTask DOMAIN SOURCE_IMPORT yaml_two_conditions] |}))
    as Hrun.
  { refine (setup_keeps_other_conditions
              {[ DOMAIN := [yaml_two_conditions; yaml_second] ]} []
              yaml_two_conditions [yaml_second] [VStr "state"; VStr "status"]
              _ _ _ _).
    - reflexivity.
    - reflexivity.
    - discriminate.
    - discriminate. }
  rewrite Hrun. split; reflexivity.
Defined.

Lemma docker_schema_accepts_witness :
  is_Ok (DOCKER_SCHEMA ({[ "colour" := VStr "red" ]} : gmap string pyval)) = false.
Proof.
  apply not_true_is_false. intros Hok.
  apply (docker_schema_accepts _ example_NoDup) in Hok as [Hknown _].
  assert ("colour" ∈ recognized_options) as Hin
    by (apply Hknown; exists (VStr "red"); reflexivity).
  revert Hin. apply (bool_decide_unpack _). vm_compute. exact I.
Defined.

Lemma zero_interval_accepted :
  is_Ok (DOCKER_SCHEMA zero_interval_entry) = true.
Proof. vm_compute. reflexivity. Qed.

Lemma docker_schema_idempotent_witness :
  exists out,
    DOCKER_SCHEMA zero_interval_entry = Ok out /\ DOCKER_SCHEMA out = Ok out.
Proof.
  pose proof zero_interval_accepted as Hok.
  destruct (DOCKER_SCHEMA zero_interval_entry) as [out|] eqn:E; [|discriminate].
  exists out. split; [reflexivity|].
  exact (docker_schema_idempotent zero_interval_entry out example_NoDup E).
Defined.

Lemma validated_entry_is_imported_witness :
  exists e,
    DOCKER_SCHEMA zero_interval_entry = Ok e
    /\ (async_setup {| setup_config := {[ DOMAIN := [e] ]}; setup_effects := [] |}).1
       = Ok true.
Proof.
  pose proof zero_interval_accepted as Hok.
  destruct (DOCKER_SCHEMA zero_interval_entry) as [e|] eqn:E; [|discriminate].
  exists e. split; [reflexivity|].
  destruct (validated_entry_is_imported zero_interval_entry e
              {[ DOMAIN := [e] ]} [] [] example_NoDup) as (ls & _ & Hrun).
  - apply (list_elem_of_lookup_2 _ 3%nat). reflexivity.
  - exact E.
  - apply lookup_singleton_eq.
  - cbn zeta in Hrun. rewrite Hrun. reflexivity.
Defined.

Lemma example_config_accepted : is_Ok (CONFIG_SCHEMA example_config) = true.
Proof. vm_compute. reflexivity. Qed.

Lemma config_schema_validates_witness :
  exists config' outs,
    CONFIG_SCHEMA example_config = Ok config'
    /\ config' !! "sensor" = Some (VList [])
    /\ config' !! DOMAIN = Some (VList outs)
    /\ length outs = 1%nat.
Proof.
  pose proof example_config_accepted as Hok.
  destruct (CONFIG_SCHEMA example_config) as [config'|] eqn:E; [|discriminate].
  destruct (proj2 (config_schema_validates example_config) config' E)
    as [Hother Hentries].
  destruct (Hentries (VDict [("scan_interval", VInt 0)]))
    as (items & outs & Hitems & Hd & Hall); [reflexivity|].
  exists config', outs. split; [reflexivity|]. split.
  - rewrite (Hother "sensor"); [reflexivity|]. cbn. discriminate.
  - split; [exact Hd|].
    injection Hitems as <-. apply Forall2_length in Hall. symmetry. exact Hall.
Defined.

(** ** Two setups under one host name *)

Section two_setups.
Context `{Consts} (w : World).


End two_setups.

